(** * here_xyz.py: upload of Strava geo data to a HERE interactive map layer

    A shallow embedding of [_get_here_iml] and [upload_geo_data].  The
    remote service, the file system and the console are the outside world:
    every call to them is recorded in a trace, its outcome is read from an
    environment, and Python exceptions are results of the computation. *)

From Stdlib Require Import String Ascii List Arith ZArith Bool Lia.
Import ListNotations.
Local Open Scope string_scope.
Local Open Scope list_scope.
Local Open Scope nat_scope.

(** ** Python lists: slices and [range] *)

Module Py.

(** [l[i:j]] for indices [0 <= i] and [0 <= j]. *)
Definition slice {A : Type} (l : list A) (i j : nat) : list A :=
  firstn (j - i) (skipn i l).

(** [range(start, stop, step)] for a positive [step]; the loop counter can
    take at most [stop] values, which bounds the recursion. *)
Fixpoint range_from (fuel start stop step : nat) : list nat :=
  match fuel with
  | 0 => []
  | S fuel' =>
      if start <? stop
      then start :: range_from fuel' (start + step) stop step
      else []
  end.

Definition range (start stop step : nat) : list nat :=
  range_from stop start stop step.

End Py.

(** ** Module constants *)

Definition HERE_CATALOG_ID : string := "strava-analysis-tool".
Definition HERE_LAYER_ID : string := "strava-activity-data".
Definition HERE_FEATURE_IDS_CHUNK_SIZE : nat := 100.

(** The f-string of line 47. *)
Definition HERE_CATALOG_HRN : string := "hrn:here:data:::" ++ HERE_CATALOG_ID.

(** ** Chunking of the feature identifiers (lines 114-115) *)

Definition chunks_of {A : Type} (size : nat) (l : list A) : list (list A) :=
  map (fun i => Py.slice l i (i + size)) (Py.range 0 (length l) size).

Definition feature_ids_chunks (feature_ids : list string) : list (list string) :=
  chunks_of HERE_FEATURE_IDS_CHUNK_SIZE feature_ids.

(** Number of batches announced by the specification. *)
Definition ceil_div (n k : nat) : nat :=
  n / k + (if n mod k =? 0 then 0 else 1).

(** ** Python values, exceptions and results *)

(** What [geojson.load] returns: the parsed JSON document.  Objects are
    Python dicts (the GeoJSON classes are dict subclasses), kept as their
    items in insertion order; numbers are the integers. *)
#[local] Unset Elimination Schemes.
Inductive json : Type :=
| JNull
| JBool (b : bool)
| JInt (n : Z)
| JStr (s : string)
| JList (items : list json)
| JDict (items : list (string * json)).
#[local] Set Elimination Schemes.

(** Truth value of a Python object, as tested by [if geo_data:]. *)
Definition truthy (v : json) : bool :=
  match v with
  | JNull => false
  | JBool b => b
  | JInt n => negb (n =? 0)%Z
  | JStr s => negb (s =? "")%string
  | JList items => match items with [] => false | _ :: _ => true end
  | JDict items => match items with [] => false | _ :: _ => true end
  end.

Fixpoint dict_get (key : string) (items : list (string * json)) : option json :=
  match items with
  | [] => None
  | (k, v) :: rest => if (k =? key)%string then Some v else dict_get key rest
  end.

(** The members of a feature collection, when the value is one. *)
Definition features_of (v : json) : option (list json) :=
  match v with
  | JDict items =>
      match dict_get "features" items with
      | Some (JList fs) => Some fs
      | _ => None
      end
  | _ => None
  end.

(** The [id] member of a feature object. *)
Definition id_of (f : json) : option json :=
  match f with
  | JDict items => dict_get "id" items
  | _ => None
  end.

(** Exceptions.  [except Exception] catches the first kind only;
    [KeyboardInterrupt] and [SystemExit] derive from [BaseException]. *)
Inductive exn : Type :=
| PyException (cls msg : string)
| KeyboardInterrupt
| SystemExit (msg : string).

Definition is_Exception (e : exn) : bool :=
  match e with
  | PyException _ _ => true
  | _ => false
  end.

(** [str(error)], as interpolated in the f-string of line 81. *)
Definition str (e : exn) : string :=
  match e with
  | PyException _ msg => msg
  | KeyboardInterrupt => ""
  | SystemExit msg => msg
  end.

Inductive outcome (A : Type) : Type :=
| Ok (a : A)
| Raise (e : exn).
Arguments Ok {A} a.
Arguments Raise {A} e.

(** ** The outside world *)

Definition Path := string.
Definition Credentials := string.

(** An [IML] object is a reference to one remote layer. *)
Definition IML := nat.

(** A feature stored in a layer: its identifier and the rest of it. *)
Record Feature : Type := { feature_id : string; feature_body : json }.

Inductive event : Type :=
| EPrint (msg : string)
| ECredentials (path : Path)
| ELookup (catalog_hrn layer_id : string)
| ECreate (catalog_id catalog_name catalog_summary catalog_description : string)
          (layer_details : json)
| ESearch (iml : IML)
| EDelete (iml : IML) (ids : list string)
| EOpen (path : Path)
| EClose (path : Path)
| EWrite (iml : IML) (features : json).

(** How the outside world answers.  The service decides which features a
    search returns, which calls fail and what a write does to a layer;
    a file is absent ([None]) or has a text. *)
Record Env : Type := {
  credentials_file : Path -> outcome Credentials;
  lookup_layer : string -> string -> Credentials -> outcome IML;
  new_layer : string -> json -> Credentials -> outcome IML;
  search_result : IML -> outcome (list Feature);
  delete_failure : nat -> IML -> list string -> option exn;
  write_failure : IML -> json -> option exn;
  write_effect : json -> list Feature -> list Feature;
  file_system : Path -> option string;
  json_document : string -> outcome json
}.

(** The state threaded through a run: the features each layer holds and
    the calls made so far, oldest first. *)
Record World : Type := { layers : IML -> list Feature; trace : list event }.

Definition initial (content : IML -> list Feature) : World :=
  {| layers := content; trace := [] |}.

Definition record_event (e : event) (w : World) : World :=
  {| layers := layers w; trace := trace w ++ [e] |}.

Definition set_layer (iml : IML) (fs : list Feature) (w : World) : World :=
  {| layers := fun i => if i =? iml then fs else layers w i; trace := trace w |}.

(** Projections of a trace. *)
Definition deletes (tr : list event) : list (IML * list string) :=
  flat_map (fun e => match e with EDelete i ids => [(i, ids)] | _ => [] end) tr.

Definition writes (tr : list event) : list (IML * json) :=
  flat_map (fun e => match e with EWrite i v => [(i, v)] | _ => [] end) tr.

Definition searches (tr : list event) : list IML :=
  flat_map (fun e => match e with ESearch i => [i] | _ => [] end) tr.

Definition creations (tr : list event) : list string :=
  flat_map (fun e => match e with ECreate c _ _ _ _ => [c] | _ => [] end) tr.

Definition prints (tr : list event) : list string :=
  flat_map (fun e => match e with EPrint m => [m] | _ => [] end) tr.

Definition opens (tr : list event) : list Path :=
  flat_map (fun e => match e with EOpen p => [p] | _ => [] end) tr.

Definition closes (tr : list event) : list Path :=
  flat_map (fun e => match e with EClose p => [p] | _ => [] end) tr.

Definition lookups (tr : list event) : list (string * string) :=
  flat_map (fun e => match e with ELookup hrn l => [(hrn, l)] | _ => [] end) tr.

Definition credential_loads (tr : list event) : list Path :=
  flat_map (fun e => match e with ECredentials p => [p] | _ => [] end) tr.

(** The calls each phase of a run can make. *)
Definition resolver_event (e : event) : bool :=
  match e with
  | EPrint _ | ECredentials _ | ELookup _ _ | ECreate _ _ _ _ _ => true
  | _ => false
  end.

Definition purge_event (e : event) : bool :=
  match e with
  | EPrint _ | ESearch _ | EDelete _ _ => true
  | _ => false
  end.

Definition upload_event (e : event) : bool :=
  match e with
  | EPrint _ | EOpen _ | EClose _ | EWrite _ _ => true
  | _ => false
  end.

(** Removal of the features whose identifier is listed. *)
Definition without_ids (ids : list string) (fs : list Feature) : list Feature :=
  filter (fun f => negb (existsb (String.eqb (feature_id f)) ids)) fs.

(** ** The computation monad: state and exceptions *)

Definition M (A : Type) : Type := World -> outcome A * World.

Definition ret {A : Type} (a : A) : M A := fun w => (Ok a, w).

Definition bind {A B : Type} (m : M A) (k : A -> M B) : M B :=
  fun w =>
    match m w with
    | (Ok a, w') => k a w'
    | (Raise e, w') => (Raise e, w')
    end.

Definition raise {A : Type} (e : exn) : M A := fun w => (Raise e, w).

Declare Scope py_scope.
Delimit Scope py_scope with py.
Notation "x <- m ;; k" := (bind m (fun x => k))
  (at level 100, m at next level, right associativity) : py_scope.
Notation "m ;;; k" := (bind m (fun _ => k))
  (at level 100, right associativity) : py_scope.
Local Open Scope py_scope.

(** [try: body except Exception as error: handler error]. *)
Definition try_except_Exception {A : Type} (body : M A) (handler : exn -> M A) : M A :=
  fun w =>
    match body w with
    | (Ok a, w') => (Ok a, w')
    | (Raise e, w') => if is_Exception e then handler e w' else (Raise e, w')
    end.

(** [for x in xs: body x]. *)
Fixpoint for_each {A : Type} (xs : list A) (body : A -> M unit) : M unit :=
  match xs with
  | [] => ret tt
  | x :: rest => body x ;;; for_each rest body
  end.

Definition print (msg : string) : M unit := fun w => (Ok tt, record_event (EPrint msg) w).

(** [sys.exit(msg)] raises [SystemExit(msg)]. *)
Definition sys_exit {A : Type} (msg : string) : M A := raise (SystemExit msg).

(** ** Library calls *)

Section Program.

Variable env : Env.

(** [Credentials.from_credentials_file(path)]. *)
Definition Credentials_from_credentials_file (path : Path) : M Credentials :=
  fun w => (credentials_file env path, record_event (ECredentials path) w).

(** [IML.from_catalog_hrn_and_layer_id(catalog_hrn, layer_id, credentials)]. *)
Definition IML_from_catalog_hrn_and_layer_id
    (catalog_hrn layer_id : string) (credentials : Credentials) : M IML :=
  fun w => (lookup_layer env catalog_hrn layer_id credentials,
            record_event (ELookup catalog_hrn layer_id) w).

(** [IML.new(catalog_id, catalog_name, catalog_summary, catalog_description,
    layer_details, credentials)]. *)
Definition IML_new
    (catalog_id catalog_name catalog_summary catalog_description : string)
    (layer_details : json) (credentials : Credentials) : M IML :=
  fun w => (new_layer env catalog_id layer_details credentials,
            record_event (ECreate catalog_id catalog_name catalog_summary
                                  catalog_description layer_details) w).

(** [iml.layer.search_features(params={"id=gte": "0"}).to_geojson()['features']]. *)
Definition search_features (iml : IML) : M (list Feature) :=
  fun w => (search_result env iml, record_event (ESearch iml) w).

(** [iml.layer.delete_features(ids)]: the service is asked once; when it
    does not fail, the features with these identifiers leave the layer. *)
Definition delete_features (iml : IML) (ids : list string) : M unit :=
  fun w =>
    let w' := record_event (EDelete iml ids) w in
    match delete_failure env (length (deletes (trace w))) iml ids with
    | Some e => (Raise e, w')
    | None =>
        (Ok tt,
         set_layer iml (without_ids ids (layers w iml)) w')
    end.

(** [iml.layer.write_features(features=geo_data)]. *)
Definition write_features (iml : IML) (features : json) : M unit :=
  fun w =>
    let w' := record_event (EWrite iml features) w in
    match write_failure env iml features with
    | Some e => (Raise e, w')
    | None => (Ok tt, set_layer iml (write_effect env features (layers w iml)) w')
    end.

(** [with path.open('r', encoding='utf-8') as f: body f]: opening an
    absent file raises [FileNotFoundError]; an opened file is closed when
    the block is left, also by an exception. *)
Definition path_open (path : Path) : outcome string :=
  match file_system env path with
  | None =>
      Raise (PyException "FileNotFoundError"
               ("[Errno 2] No such file or directory: '" ++ path ++ "'"))
  | Some text => Ok text
  end.

Definition with_open {A : Type} (path : Path) (body : string -> M A) : M A :=
  fun w =>
    let w' := record_event (EOpen path) w in
    match path_open path with
    | Raise e => (Raise e, w')
    | Ok text =>
        let (r, w'') := body text w' in (r, record_event (EClose path) w'')
    end.

(** [geojson.load(f)]: an empty document is no JSON value; any other text
    is parsed by the library. *)
Definition parse_geojson (text : string) : outcome json :=
  if (text =? "")%string
  then Raise (PyException "JSONDecodeError"
                "Expecting value: line 1 column 1 (char 0)")
  else json_document env text.

Definition geojson_load (text : string) : M json :=
  fun w => (parse_geojson text, w).

(** ** [_get_here_iml] (lines 27-83) *)

Definition layer_details : json :=
  JDict [ ("id", JStr HERE_LAYER_ID);
          ("name", JStr "Strava Activity Data");
          ("summary", JStr "Strava Activity Data");
          ("description", JStr "Strava data collected by Strava Analysis Tool");
          ("layerType", JStr "interactivemap");
          ("interactiveMapProperties", JDict []) ].

Definition exit_message (error : exn) : string :=
  "[ERROR]: HERE returned the following error: " ++ str error.

Definition _get_here_iml (here_creds_file_path : Path) : M IML :=
  credentials <- Credentials_from_credentials_file here_creds_file_path ;;
  try_except_Exception
    (print "[HERE] Locating the HERE interactive map layer for Strava Analysis Tool" ;;;
     iml <- IML_from_catalog_hrn_and_layer_id
              HERE_CATALOG_HRN HERE_LAYER_ID credentials ;;
     print ("[HERE] Found an existing HERE interactive map layer with ID '"
            ++ HERE_LAYER_ID ++ "'") ;;;
     ret iml)
    (fun _ =>
       print ("[HERE] No existing HERE interactive map layer found. Creating a "
              ++ "new catalog and IML for Strava Analysis Tool.") ;;;
       try_except_Exception
         (iml <- IML_new HERE_CATALOG_ID "Strava Analysis Tool" "Strava Analysis Tool"
                   "Strava data collected by Strava Analysis Tool"
                   layer_details credentials ;;
          print ("[HERE] Created a new catalog with ID '" ++ HERE_CATALOG_ID
                 ++ "' and interactive map layer with ID '" ++ HERE_LAYER_ID ++ "'") ;;;
          ret iml)
         (fun error =>
            sys_exit (exit_message error))).

(** ** [upload_geo_data] (lines 86-133) *)

Definition deleting_message : string :=
  "[HERE] Deleting all existing activities from the HERE interactive map layer".

(** Lines 105-122: the purge of the layer. *)
Definition refresh_block (iml : IML) (refresh : bool) : M unit :=
  if refresh then
    feature_collection <- search_features iml ;;
    let feature_ids := map feature_id feature_collection in
    let chunks := feature_ids_chunks feature_ids in
    print deleting_message ;;;
    for_each chunks (fun chunk => delete_features iml chunk)
  else ret tt.

Definition uploading_message (geo_data_file_path : Path) : string :=
  "[HERE] Uploading activities from '" ++ geo_data_file_path
  ++ "' to the HERE interactive map layer".

(** Lines 124-133: the upload of the file. *)
Definition upload_block (iml : IML) (geo_data_file_path : Path) : M unit :=
  with_open geo_data_file_path (fun geo_data_file =>
    geo_data <- geojson_load geo_data_file ;;
    if truthy geo_data then
      print (uploading_message geo_data_file_path) ;;;
      write_features iml geo_data
    else ret tt).

Definition upload_geo_data
    (geo_data_file_path here_creds_file_path : Path) (refresh : bool) : M unit :=
  iml <- _get_here_iml here_creds_file_path ;;
  refresh_block iml refresh ;;;
  upload_block iml geo_data_file_path.

End Program.

(** ** Sample worlds *)

Module Sample.

Definition quote : string := String (ascii_of_nat 34) "".
Definition quoted (s : string) : string := quote ++ s ++ quote.

Definition geo_path : Path := "activities.geojson".
Definition creds_path : Path := "credentials.properties".

(** A feature of the local file. *)
Definition ride (id : string) : json :=
  JDict [ ("type", JStr "Feature"); ("id", JStr id);
          ("geometry", JNull); ("properties", JDict []) ].

Definition collection (fs : list json) : json :=
  JDict [ ("type", JStr "FeatureCollection"); ("features", JList fs) ].

Definition empty_collection : json := collection [].
Definition empty_collection_text : string :=
  "{" ++ quoted "type" ++ ": " ++ quoted "FeatureCollection" ++ ", "
      ++ quoted "features" ++ ": []}".

Definition three_rides : json := collection [ride "a1"; ride "b2"; ride "c3"].
Definition three_rides_text : string := "three rides".

(** The documents the sample parser knows; any other text is rejected. *)
Definition documents : list (string * json) :=
  [ (empty_collection_text, empty_collection);
    (three_rides_text, three_rides);
    ("{}", JDict []); ("[]", JList []); ("null", JNull) ].

Definition parse (text : string) : outcome json :=
  match dict_get text documents with
  | Some v => Ok v
  | None => Raise (PyException "JSONDecodeError" "Expecting value")
  end.

Definition stored (id : string) : Feature :=
  {| feature_id := id; feature_body := JNull |}.

(** [n] stored features, with distinct identifiers. *)
Definition stored_features (n : nat) : list Feature :=
  map (fun k => stored (String (ascii_of_nat k) "")) (seq 0 n).

Definition not_found : exn := PyException "HTTPError" "404 catalog not found".
Definition forbidden : exn := PyException "HTTPError" "403 forbidden".
Definition unavailable : exn := PyException "HTTPError" "503 service unavailable".

(** A world with one layer, number 7, holding [remote]; the lookup and the
    creation answer as given, the delete call number [k] fails when
    [failing_delete] is [Some k], and the only file is [geo_path]. *)
Definition world (lookup create : outcome IML) (remote : list Feature)
    (failing_delete : option nat) (file : option string) : Env :=
  {| credentials_file := fun _ => Ok "here-token";
     lookup_layer := fun _ _ _ => lookup;
     new_layer := fun _ _ _ => create;
     search_result := fun _ => Ok remote;
     delete_failure := fun n _ _ =>
       match failing_delete with
       | Some k => if n =? k then Some unavailable else None
       | None => None
       end;
     write_failure := fun _ _ => None;
     write_effect := fun v fs => fs ++ [{| feature_id := "uploaded"; feature_body := v |}];
     file_system := fun p => if (p =? geo_path)%string then file else None;
     json_document := parse |}.

Definition content (remote : list Feature) : IML -> list Feature :=
  fun i => if i =? 7 then remote else [].

(** A world whose layer 7 is found, in which the credentials loader, the
    search and the write answer as given; every path holds the three rides. *)
Definition broken (credentials : outcome Credentials)
    (search : outcome (list Feature)) (write : option exn) : Env :=
  {| credentials_file := fun _ => credentials;
     lookup_layer := fun _ _ _ => Ok 7;
     new_layer := fun _ _ _ => Raise forbidden;
     search_result := fun _ => search;
     delete_failure := fun _ _ _ => None;
     write_failure := fun _ _ => write;
     write_effect := fun _ fs => fs;
     file_system := fun _ => Some three_rides_text;
     json_document := parse |}.

End Sample.

(** * Properties *)

Section Chunking.

Context {A : Type}.
Variable size : nat.
Hypothesis size_pos : 0 < size.

Lemma ceil_div_0 : ceil_div 0 size = 0.
Proof.
  unfold ceil_div. rewrite Nat.Div0.div_0_l, Nat.Div0.mod_0_l. reflexivity.
Qed.

Lemma ceil_div_step d : 0 < d -> ceil_div d size = S (ceil_div (d - size) size).
Proof.
  intros Hd. unfold ceil_div.
  destruct (Nat.lt_trichotomy d size) as [Hlt | [Heq | Hgt]].
  - replace (d - size) with 0 by lia.
    rewrite Nat.div_small, Nat.mod_small by lia.
    rewrite Nat.Div0.div_0_l, Nat.Div0.mod_0_l.
    destruct (Nat.eqb_spec d 0); [lia | reflexivity].
  - subst d. rewrite Nat.sub_diag, Nat.div_same, Nat.Div0.mod_same by lia.
    rewrite Nat.Div0.div_0_l, Nat.Div0.mod_0_l. reflexivity.
  - replace d with ((d - size) + 1 * size) at 1 2 by lia.
    rewrite Nat.div_add, Nat.Div0.mod_add by lia. lia.
Qed.

Lemma range_from_length fuel start stop :
  stop - start <= fuel ->
  length (Py.range_from fuel start stop size) = ceil_div (stop - start) size.
Proof.
  revert start. induction fuel as [|fuel IH]; intros start Hfuel; cbn [Py.range_from].
  - replace (stop - start) with 0 by lia. now rewrite ceil_div_0.
  - destruct (Nat.ltb_spec start stop) as [Hlt|Hge].
    + cbn [length]. rewrite IH by lia.
      rewrite (ceil_div_step (stop - start)) by lia.
      do 2 f_equal. lia.
    + replace (stop - start) with 0 by lia. now rewrite ceil_div_0.
Qed.

Lemma range_from_nth fuel start stop i :
  stop - start <= fuel ->
  i < length (Py.range_from fuel start stop size) ->
  nth i (Py.range_from fuel start stop size) 0 = start + i * size
  /\ start + i * size < stop.
Proof.
  revert start i. induction fuel as [|fuel IH]; intros start i Hfuel; cbn [Py.range_from].
  - cbn. lia.
  - destruct (Nat.ltb_spec start stop) as [Hlt|Hge]; [|cbn; lia].
    destruct i as [|i]; cbn [nth length]; intros Hi.
    + lia.
    + destruct (IH (start + size) i) as [-> ?]; lia.
Qed.

Lemma range_from_concat (l : list A) fuel start :
  length l - start <= fuel ->
  concat (map (fun i => Py.slice l i (i + size))
              (Py.range_from fuel start (length l) size)) = skipn start l.
Proof.
  revert start. induction fuel as [|fuel IH]; intros start Hfuel; cbn [Py.range_from].
  - cbn. symmetry. apply skipn_all2. lia.
  - destruct (Nat.ltb_spec start (length l)) as [Hlt|Hge].
    + cbn [map concat]. rewrite IH by lia. unfold Py.slice.
      replace (start + size - start) with size by lia.
      rewrite Nat.add_comm, <- skipn_skipn. apply firstn_skipn.
    + cbn. symmetry. apply skipn_all2. lia.
Qed.

Lemma chunks_of_length (l : list A) :
  length (chunks_of size l) = ceil_div (length l) size.
Proof.
  unfold chunks_of, Py.range. rewrite length_map, range_from_length by lia.
  now rewrite Nat.sub_0_r.
Qed.

Lemma chunks_of_nth (l : list A) i :
  i < length (chunks_of size l) ->
  nth i (chunks_of size l) [] = Py.slice l (i * size) (i * size + size)
  /\ i * size < length l.
Proof.
  unfold chunks_of, Py.range. rewrite length_map. intros Hi.
  destruct (range_from_nth (length l) 0 (length l) i) as [Hn Hb]; [lia | exact Hi |].
  cbn in Hn, Hb. split; [|exact Hb].
  rewrite (nth_indep _ [] (Py.slice l 0 (0 + size))) by now rewrite length_map.
  rewrite (map_nth (fun i => Py.slice l i (i + size))). now rewrite Hn.
Qed.

Lemma chunks_of_concat (l : list A) : concat (chunks_of size l) = l.
Proof.
  unfold chunks_of, Py.range. now rewrite range_from_concat by lia.
Qed.

Lemma slice_length (l : list A) i j :
  length (Py.slice l i j) = Nat.min (j - i) (length l - i).
Proof. unfold Py.slice. now rewrite length_firstn, length_skipn. Qed.

Lemma chunks_of_full (l : list A) i :
  S i < length (chunks_of size l) ->
  length (nth i (chunks_of size l) []) = size.
Proof.
  intros Hi.
  destruct (chunks_of_nth l i) as [-> _]; [lia|].
  destruct (chunks_of_nth l (S i)) as [_ Hb]; [exact Hi|].
  rewrite slice_length. cbn [Nat.mul] in Hb. lia.
Qed.

Lemma chunks_of_last (l : list A) :
  chunks_of size l <> [] ->
  length (last (chunks_of size l) []) =
    if length l mod size =? 0 then size else length l mod size.
Proof.
  intros Hne.
  assert (Hlen : 0 < length (chunks_of size l))
    by (destruct (chunks_of size l); [congruence | cbn; lia]).
  destruct (exists_last Hne) as (front & c & Heq).
  assert (Hfront : length (chunks_of size l) = S (length front))
    by (rewrite Heq, length_app; cbn; lia).
  destruct (chunks_of_nth l (length front)) as [Hnth Hb]; [lia|].
  rewrite Heq in Hnth |- *. rewrite last_last.
  rewrite app_nth2, Nat.sub_diag in Hnth by lia. cbn [nth] in Hnth. subst c.
  rewrite slice_length.
  pose proof (chunks_of_length l) as Hq. rewrite Hfront in Hq. unfold ceil_div in Hq.
  pose proof (Nat.div_mod_eq (length l) size) as Hdm.
  pose proof (Nat.mod_upper_bound (length l) size ltac:(lia)) as Hm.
  destruct (Nat.eqb_spec (length l mod size) 0) as [Hz|Hnz].
  - assert (length l / size = S (length front)) by lia. nia.
  - assert (length l / size = length front) by lia. nia.
Qed.

End Chunking.

(** C1. The chunking of lines 114-115 cuts the identifiers into
    [ceil(N/100)] contiguous batches, the [i]-th being
    [feature_ids[100*i : 100*i + 100]]; every batch but the last holds
    exactly 100 identifiers, the last one holds [N mod 100] of them when
    that is not zero and 100 otherwise, and the batches concatenated in
    order give the sequence back. *)
Theorem feature_ids_chunks_partition (feature_ids : list string) :
  let N := length feature_ids in
  let batches := feature_ids_chunks feature_ids in
  length batches = ceil_div N 100
  /\ (forall i, i < length batches ->
        nth i batches [] = Py.slice feature_ids (i * 100) (i * 100 + 100))
  /\ (forall i, S i < length batches -> length (nth i batches []) = 100)
  /\ (batches <> [] ->
        length (last batches []) = if N mod 100 =? 0 then 100 else N mod 100)
  /\ concat batches = feature_ids.
Proof.
  assert (Hpos : 0 < 100) by apply Nat.lt_0_succ.
  unfold feature_ids_chunks. change HERE_FEATURE_IDS_CHUNK_SIZE with 100.
  cbv zeta. repeat split.
  - apply chunks_of_length, Hpos.
  - intros i Hi. apply (chunks_of_nth 100 Hpos), Hi.
  - intros i Hi. apply (chunks_of_full 100 Hpos), Hi.
  - apply chunks_of_last, Hpos.
  - apply chunks_of_concat, Hpos.
Qed.

Lemma feature_ids_chunks_partition_witness :
  let feature_ids := map feature_id (Sample.stored_features 250) in
  let batches := feature_ids_chunks feature_ids in
  length batches = 3
  /\ length (nth 0 batches []) = 100
  /\ length (nth 1 batches []) = 100
  /\ length (last batches []) = 50
  /\ concat batches = feature_ids.
Proof.
  cbv zeta.
  destruct (feature_ids_chunks_partition (map feature_id (Sample.stored_features 250)))
    as (Hcount & _ & Hfull & Hlast & Hconcat).
  split; [rewrite Hcount; vm_compute; reflexivity|].
  split; [apply Hfull; vm_compute; lia|].
  split; [apply Hfull; vm_compute; lia|].
  split; [|exact Hconcat].
  rewrite Hlast; [vm_compute; reflexivity|]. vm_compute. discriminate.
Defined.

(** ** Traces *)

Lemma deletes_app a b : deletes (a ++ b) = deletes a ++ deletes b.
Proof. apply flat_map_app. Qed.

Lemma writes_app a b : writes (a ++ b) = writes a ++ writes b.
Proof. apply flat_map_app. Qed.

Lemma searches_app a b : searches (a ++ b) = searches a ++ searches b.
Proof. apply flat_map_app. Qed.

Lemma creations_app a b : creations (a ++ b) = creations a ++ creations b.
Proof. apply flat_map_app. Qed.

Lemma opens_app a b : opens (a ++ b) = opens a ++ opens b.
Proof. apply flat_map_app. Qed.

Lemma prints_app a b : prints (a ++ b) = prints a ++ prints b.
Proof. apply flat_map_app. Qed.

Create Rewrite HintDb trace.
#[local] Hint Rewrite deletes_app writes_app searches_app creations_app
  opens_app prints_app : trace.

Lemma resolver_events_silent evs :
  forallb resolver_event evs = true ->
  deletes evs = [] /\ writes evs = [] /\ searches evs = [] /\ opens evs = [].
Proof.
  induction evs as [|e evs IH]; cbn [forallb]; [now repeat split|].
  intros [He Hevs]%andb_prop. destruct (IH Hevs) as (Hd & Hw & Hs & Ho).
  destruct e; try discriminate He; cbn; now rewrite ?Hd, ?Hw, ?Hs, ?Ho.
Qed.

Lemma purge_events_silent evs :
  forallb purge_event evs = true ->
  writes evs = [] /\ opens evs = [] /\ creations evs = [].
Proof.
  induction evs as [|e evs IH]; cbn [forallb]; [now repeat split|].
  intros [He Hevs]%andb_prop. destruct (IH Hevs) as (Hw & Ho & Hc).
  destruct e; try discriminate He; cbn; now rewrite ?Hw, ?Ho, ?Hc.
Qed.

(** ** The resolver *)

Ltac unfold_resolver :=
  cbv [_get_here_iml bind try_except_Exception Credentials_from_credentials_file
       IML_from_catalog_hrn_and_layer_id IML_new print ret sys_exit raise].

Section Resolver.

Variable env : Env.

(** The resolver leaves every layer as it is, and calls nothing but the
    credentials loader, the lookup, the creation and [print]. *)
Lemma get_here_iml_frame path w r w' :
  _get_here_iml env path w = (r, w') ->
  layers w' = layers w
  /\ exists evs, trace w' = trace w ++ evs /\ forallb resolver_event evs = true.
Proof.
  unfold_resolver.
  destruct (credentials_file env path) as [credentials|e].
  2:{ intros [= <- <-]. split; [reflexivity|]. now eexists. }
  destruct (lookup_layer env _ _ credentials) as [iml|e].
  { intros [= <- <-]. split; [reflexivity|]. cbn [trace record_event].
    rewrite <- !app_assoc. now eexists. }
  destruct (is_Exception e).
  2:{ intros [= <- <-]. split; [reflexivity|]. cbn [trace record_event].
      rewrite <- !app_assoc. now eexists. }
  destruct (new_layer env _ _ credentials) as [iml|e'].
  { intros [= <- <-]. split; [reflexivity|]. cbn [trace record_event].
    rewrite <- !app_assoc. now eexists. }
  destruct (is_Exception e');
    intros [= <- <-]; (split; [reflexivity|]); cbn [trace record_event];
    rewrite <- !app_assoc; now eexists.
Qed.

End Resolver.

(** C4. When the credentials are loaded and the lookup of the existing
    layer succeeds, [_get_here_iml] returns the handle the lookup gave and
    makes no creation call: the run consists of the credentials load, the
    lookup and two progress lines. *)
Theorem get_here_iml_returns_existing_layer
    (env : Env) (path : Path) (content : IML -> list Feature)
    (credentials : Credentials) (iml : IML) :
  credentials_file env path = Ok credentials ->
  lookup_layer env HERE_CATALOG_HRN HERE_LAYER_ID credentials = Ok iml ->
  let run := _get_here_iml env path (initial content) in
  fst run = Ok iml
  /\ length (creations (trace (snd run))) = 0
  /\ exists locating found,
       trace (snd run) =
         [ECredentials path; EPrint locating;
          ELookup HERE_CATALOG_HRN HERE_LAYER_ID; EPrint found].
Proof.
  intros Hcred Hlookup. cbv zeta. unfold_resolver.
  rewrite Hcred, Hlookup. cbn. repeat split. now do 2 eexists.
Qed.

Lemma get_here_iml_returns_existing_layer_witness :
  let run := _get_here_iml
               (Sample.world (Ok 7) (Raise Sample.forbidden) [] None None)
               Sample.creds_path (initial (Sample.content [])) in
  fst run = Ok 7 /\ length (creations (trace (snd run))) = 0.
Proof.
  cbv zeta.
  destruct (get_here_iml_returns_existing_layer
              (Sample.world (Ok 7) (Raise Sample.forbidden) [] None None)
              Sample.creds_path (Sample.content []) "here-token" 7 eq_refl eq_refl)
    as (Hhandle & Hnone & _).
  split; [exact Hhandle | exact Hnone].
Defined.

(** C5. When the lookup raises an exception (of any class derived from
    [Exception], whatever its message), [_get_here_iml] calls the creation
    of the catalog and layer exactly once.  When the creation succeeds its
    handle is returned; when it raises too, no handle is returned:
    [SystemExit] is raised with the service's error text in its message,
    and [upload_geo_data] stops there, with no further call. *)
Theorem get_here_iml_creates_once_or_exits
    (env : Env) (path geo_data_file_path : Path) (refresh : bool)
    (content : IML -> list Feature)
    (credentials : Credentials) (cls msg : string) :
  credentials_file env path = Ok credentials ->
  lookup_layer env HERE_CATALOG_HRN HERE_LAYER_ID credentials
    = Raise (PyException cls msg) ->
  let run := _get_here_iml env path (initial content) in
  creations (trace (snd run)) = [HERE_CATALOG_ID]
  /\ (forall iml,
        new_layer env HERE_CATALOG_ID layer_details credentials = Ok iml ->
        fst run = Ok iml)
  /\ (forall cls' msg',
        new_layer env HERE_CATALOG_ID layer_details credentials
          = Raise (PyException cls' msg') ->
        fst run
          = Raise (SystemExit ("[ERROR]: HERE returned the following error: " ++ msg'))
        /\ upload_geo_data env geo_data_file_path path refresh (initial content)
           = (Raise (SystemExit ("[ERROR]: HERE returned the following error: " ++ msg')),
              snd run)).
Proof.
  intros Hcred Hlookup. cbv zeta. unfold upload_geo_data. unfold bind at 1. unfold_resolver.
  rewrite Hcred, Hlookup. cbn [is_Exception].
  destruct (new_layer env HERE_CATALOG_ID layer_details credentials) as [iml|e'];
    [|destruct e'; cbn [is_Exception]]; cbn [fst snd trace record_event initial app];
    (split; [reflexivity|]); split; intros; try discriminate; try congruence.
  match goal with H : Raise _ = Raise _ |- _ => injection H as <- <- end.
  split; reflexivity.
Qed.

Lemma get_here_iml_creates_once_or_exits_witness :
  let env := Sample.world (Raise Sample.not_found) (Raise Sample.forbidden) [] None None in
  let run := _get_here_iml env Sample.creds_path (initial (Sample.content [])) in
  length (creations (trace (snd run))) = 1
  /\ fst run
     = Raise (SystemExit "[ERROR]: HERE returned the following error: 403 forbidden")
  /\ fst (upload_geo_data env Sample.geo_path Sample.creds_path true
            (initial (Sample.content [])))
     = Raise (SystemExit "[ERROR]: HERE returned the following error: 403 forbidden").
Proof.
  cbv zeta.
  destruct (get_here_iml_creates_once_or_exits
              (Sample.world (Raise Sample.not_found) (Raise Sample.forbidden) [] None None)
              Sample.creds_path Sample.geo_path true (Sample.content [])
              "here-token" "HTTPError" "404 catalog not found" eq_refl eq_refl)
    as (Honce & _ & Hexit).
  destruct (Hexit "HTTPError" "403 forbidden" eq_refl) as (Hraise & Hrun).
  split; [now rewrite Honce|]. split; [exact Hraise|]. now rewrite Hrun.
Defined.

(** ** The purge and the upload *)

Lemma without_ids_app ids ids' fs :
  without_ids ids' (without_ids ids fs) = without_ids (ids ++ ids') fs.
Proof.
  unfold without_ids. induction fs as [|f fs IH]; [reflexivity|].
  cbn [filter]. rewrite existsb_app.
  destruct (existsb (String.eqb (feature_id f)) ids) eqn:Hin; cbn [negb orb].
  - exact IH.
  - cbn [filter]. destruct (existsb (String.eqb (feature_id f)) ids'); cbn [negb];
      now rewrite IH.
Qed.

Lemma without_ids_all ids fs :
  (forall f, In f fs -> In (feature_id f) ids) -> without_ids ids fs = [].
Proof.
  unfold without_ids. induction fs as [|f fs IH]; intros Hall; [reflexivity|].
  cbn [filter].
  assert (Hf : existsb (String.eqb (feature_id f)) ids = true).
  { apply existsb_exists. exists (feature_id f). split.
    - apply Hall. now left.
    - apply String.eqb_refl. }
  rewrite Hf. cbn [negb]. apply IH. intros g Hg. apply Hall. now right.
Qed.

Section Upload.

Variable env : Env.
Variable iml : IML.

(** All batches are deleted, in order, when none of the calls fails. *)
Lemma delete_loop_ok chunks : forall w,
  (forall j, j < length chunks ->
     delete_failure env (length (deletes (trace w)) + j) iml (nth j chunks []) = None) ->
  exists w',
    for_each chunks (delete_features env iml) w = (Ok tt, w')
    /\ trace w' = trace w ++ map (EDelete iml) chunks
    /\ layers w' iml = without_ids (concat chunks) (layers w iml)
    /\ (forall i, i <> iml -> layers w' i = layers w i).
Proof.
  induction chunks as [|c rest IH]; intros w Hok.
  - exists w. cbn. rewrite app_nil_r. repeat split.
    unfold without_ids. cbn. induction (layers w iml) as [|f fs IHf]; cbn; congruence.
  - cbn [for_each]. unfold bind, delete_features at 1.
    pose proof (Hok 0 ltac:(cbn; lia)) as H0. rewrite Nat.add_0_r in H0. cbn [nth] in H0.
    rewrite H0.
    set (w1 := set_layer iml _ _).
    destruct (IH w1) as (w' & Hrun & Htr & Hlay & Hother).
    { intros j Hj. subst w1. cbn [trace set_layer record_event].
      rewrite deletes_app, length_app. cbn [deletes flat_map length app].
      rewrite <- Nat.add_assoc. apply (Hok (S j)). cbn. lia. }
    exists w'. split; [exact Hrun|]. subst w1. cbn [trace layers set_layer record_event] in *.
    rewrite Nat.eqb_refl in Hlay. repeat split.
    + rewrite Htr, <- app_assoc. reflexivity.
    + rewrite Hlay. cbn [concat]. apply without_ids_app.
    + intros i Hi. rewrite (Hother i Hi).
      destruct (Nat.eqb_spec i iml); [contradiction | reflexivity].
Qed.

(** The loop stops at the first batch whose deletion fails, with the
    exception of that call. *)
Lemma delete_loop_fail chunks : forall w k e,
  k < length chunks ->
  (forall j, j < k ->
     delete_failure env (length (deletes (trace w)) + j) iml (nth j chunks []) = None) ->
  delete_failure env (length (deletes (trace w)) + k) iml (nth k chunks []) = Some e ->
  exists w',
    for_each chunks (delete_features env iml) w = (Raise e, w')
    /\ trace w' = trace w ++ map (EDelete iml) (firstn (S k) chunks).
Proof.
  induction chunks as [|c rest IH]; intros w k e Hk Hok Hfail; [cbn in Hk; lia|].
  cbn [for_each]. unfold bind, delete_features at 1.
  destruct k as [|k].
  - rewrite Nat.add_0_r in Hfail. cbn [nth] in Hfail. rewrite Hfail.
    eexists. split; [reflexivity|]. reflexivity.
  - pose proof (Hok 0 ltac:(lia)) as H0. rewrite Nat.add_0_r in H0. cbn [nth] in H0.
    rewrite H0.
    set (w1 := set_layer iml _ _).
    destruct (IH w1 k e) as (w' & Hrun & Htr).
    + cbn in Hk. lia.
    + intros j Hj. subst w1. cbn [trace set_layer record_event].
      rewrite deletes_app, length_app. cbn [deletes flat_map length app].
      rewrite <- Nat.add_assoc. apply (Hok (S j)). lia.
    + subst w1. cbn [trace set_layer record_event].
      rewrite deletes_app, length_app. cbn [deletes flat_map length app].
      rewrite <- Nat.add_assoc. exact Hfail.
    + exists w'. split; [exact Hrun|]. rewrite Htr. subst w1.
      cbn [trace set_layer record_event]. rewrite <- app_assoc. reflexivity.
Qed.

(** Whatever the service answers, the loop issues the batches one after
    the other, in their order, and nothing else. *)
Lemma delete_loop_prefix chunks : forall w r w',
  for_each chunks (delete_features env iml) w = (r, w') ->
  exists k, k <= length chunks
    /\ trace w' = trace w ++ map (EDelete iml) (firstn k chunks).
Proof.
  induction chunks as [|c rest IH]; intros w r w'.
  - cbn. intros [= <- <-]. exists 0. cbn. now rewrite app_nil_r.
  - cbn [for_each]. unfold bind, delete_features at 1.
    destruct (delete_failure env _ iml c).
    + intros [= <- <-]. exists 1. cbn. split; [lia | reflexivity].
    + intros Hrun. apply IH in Hrun as (k & Hk & Htr). exists (S k).
      split; [cbn; lia|]. rewrite Htr. cbn [trace set_layer record_event firstn map].
      now rewrite <- app_assoc.
Qed.

Lemma refresh_block_frame refresh w r w' :
  refresh_block env iml refresh w = (r, w') ->
  exists evs, trace w' = trace w ++ evs /\ forallb purge_event evs = true.
Proof.
  unfold refresh_block. destruct refresh.
  - unfold bind at 1, search_features at 1.
    destruct (search_result env iml) as [fs|e].
    + unfold bind at 1, print at 1. intros Hrun.
      apply delete_loop_prefix in Hrun as (k & _ & Htr).
      eexists. split.
      * rewrite Htr. cbn [trace record_event]. rewrite <- !app_assoc. reflexivity.
      * cbn [app forallb purge_event andb]. clear.
        induction (firstn k _); cbn; auto.
    + intros [= <- <-]. now exists [ESearch iml].
  - intros [= <- <-]. exists []. now rewrite app_nil_r.
Qed.

(** Lines 124-133, case by case. *)
Lemma upload_block_run path w :
  upload_block env iml path w =
    match path_open env path with
    | Raise e => (Raise e, record_event (EOpen path) w)
    | Ok text =>
        match parse_geojson env text with
        | Raise e => (Raise e, record_event (EClose path) (record_event (EOpen path) w))
        | Ok geo_data =>
            if truthy geo_data then
              let w1 := record_event (EWrite iml geo_data)
                          (record_event (EPrint (uploading_message path))
                             (record_event (EOpen path) w)) in
              match write_failure env iml geo_data with
              | Some e => (Raise e, record_event (EClose path) w1)
              | None =>
                  (Ok tt,
                   record_event (EClose path)
                     (set_layer iml (write_effect env geo_data (layers w iml)) w1))
              end
            else (Ok tt, record_event (EClose path) (record_event (EOpen path) w))
        end
    end.
Proof.
  unfold upload_block, with_open.
  destruct (path_open env path) as [text|e]; [|reflexivity].
  unfold bind at 1, geojson_load at 1.
  destruct (parse_geojson env text) as [geo_data|e]; [|reflexivity].
  destruct (truthy geo_data); [|reflexivity].
  unfold bind, print, write_features.
  destruct (write_failure env iml geo_data); reflexivity.
Qed.

End Upload.

Lemma upload_events_silent evs :
  forallb upload_event evs = true ->
  deletes evs = [] /\ searches evs = [] /\ creations evs = [].
Proof.
  induction evs as [|e evs IH]; cbn [forallb]; [now repeat split|].
  intros [He Hevs]%andb_prop. destruct (IH Hevs) as (Hd & Hs & Hc).
  destruct e; try discriminate He; cbn; now rewrite ?Hd, ?Hs, ?Hc.
Qed.

Lemma deletes_of_batches iml chunks :
  deletes (map (EDelete iml) chunks) = map (pair iml) chunks.
Proof. induction chunks as [|c rest IH]; cbn; [reflexivity | now rewrite <- IH]. Qed.

Lemma opens_of_batches iml chunks : opens (map (EDelete iml) chunks) = [].
Proof. induction chunks as [|c rest IH]; cbn; [reflexivity | exact IH]. Qed.

Lemma writes_of_batches iml chunks : writes (map (EDelete iml) chunks) = [].
Proof. induction chunks as [|c rest IH]; cbn; [reflexivity | exact IH]. Qed.

Section Phases.

Variable env : Env.
Variable iml : IML.

(** The upload block opens the file first, and deletes nothing. *)
Lemma upload_block_frame path w r w' :
  upload_block env iml path w = (r, w') ->
  exists evs, trace w' = trace w ++ evs /\ forallb upload_event evs = true.
Proof.
  rewrite upload_block_run.
  destruct (path_open env path) as [text|e].
  2:{ intros [= <- <-]. now exists [EOpen path]. }
  destruct (parse_geojson env text) as [geo_data|e].
  2:{ intros [= <- <-]. cbn [trace record_event]. rewrite <- !app_assoc. now eexists. }
  destruct (truthy geo_data).
  2:{ intros [= <- <-]. cbn [trace record_event]. rewrite <- !app_assoc. now eexists. }
  cbv zeta. destruct (write_failure env iml geo_data);
    intros [= <- <-]; cbn [trace record_event set_layer];
    rewrite <- !app_assoc; now eexists.
Qed.

(** With [refresh] set and a search that answers, the purge is the loop
    over the batches of the identifiers found. *)
Lemma refresh_block_true_run w fs :
  search_result env iml = Ok fs ->
  refresh_block env iml true w =
    for_each (feature_ids_chunks (map feature_id fs)) (delete_features env iml)
      (record_event (EPrint deleting_message) (record_event (ESearch iml) w)).
Proof.
  intros Hsearch. unfold refresh_block, bind, search_features, print.
  now rewrite Hsearch.
Qed.

End Phases.

(** ** The whole run *)

Section Run.

Variable env : Env.
Variables geo creds : Path.
Variable content : IML -> list Feature.

(** Once the layer is resolved and the purge is over, the run is the
    upload block; nothing has been written or opened before. *)
Lemma upload_geo_data_phases refresh iml w1 w2 :
  _get_here_iml env creds (initial content) = (Ok iml, w1) ->
  refresh_block env iml refresh w1 = (Ok tt, w2) ->
  upload_geo_data env geo creds refresh (initial content) = upload_block env iml geo w2
  /\ writes (trace w2) = [] /\ opens (trace w2) = [].
Proof.
  intros Hres Hpurge. unfold upload_geo_data, bind. rewrite Hres, Hpurge.
  split; [reflexivity|].
  apply get_here_iml_frame in Hres as (_ & evs1 & Htr1 & Hev1).
  apply refresh_block_frame in Hpurge as (evs2 & Htr2 & Hev2).
  rewrite Htr2, Htr1. cbn [initial trace app].
  apply resolver_events_silent in Hev1 as (_ & Hw1 & _ & Ho1).
  apply purge_events_silent in Hev2 as (Hw2 & Ho2 & _).
  now rewrite writes_app, opens_app, Hw1, Hw2, Ho1, Ho2.
Qed.

End Run.

Lemma feature_collection_truthy v fs : features_of v = Some fs -> truthy v = true.
Proof.
  destruct v as [| | | | |items]; try discriminate.
  destruct items; [discriminate | reflexivity].
Qed.

(** C2, as the code has it.  After the layer is resolved and the purge (if
    any) is over, and when the file parses to [geo_data], the write call is
    made exactly once, with the whole of [geo_data], when [geo_data] is true
    as a Python condition, and is not made when it is false (an empty dict
    or list, [None], [False], [0], an empty string).  A feature collection
    is a non-empty dict, hence true, also when its list of features is
    empty: it is written. *)
Theorem write_follows_truth_of_geo_data
    (env : Env) (geo creds : Path) (refresh : bool) (content : IML -> list Feature)
    (iml : IML) (w1 w2 : World) (text : string) (geo_data : json) :
  _get_here_iml env creds (initial content) = (Ok iml, w1) ->
  refresh_block env iml refresh w1 = (Ok tt, w2) ->
  path_open env geo = Ok text ->
  parse_geojson env text = Ok geo_data ->
  let run := upload_geo_data env geo creds refresh (initial content) in
  writes (trace (snd run)) = (if truthy geo_data then [(iml, geo_data)] else [])
  /\ (forall fs, features_of geo_data = Some fs ->
        writes (trace (snd run)) = [(iml, geo_data)]).
Proof.
  intros Hres Hpurge Hopen Hparse. cbv zeta.
  destruct (upload_geo_data_phases env geo creds content refresh iml w1 w2 Hres Hpurge)
    as (-> & Hw & _).
  assert (Hmain : writes (trace (snd (upload_block env iml geo w2)))
                  = if truthy geo_data then [(iml, geo_data)] else []).
  { rewrite upload_block_run, Hopen, Hparse.
    destruct (truthy geo_data); [destruct (write_failure env iml geo_data)|];
      cbn [snd trace record_event set_layer];
      autorewrite with trace; rewrite Hw; reflexivity. }
  split; [exact Hmain|].
  intros fs Hfs. now rewrite Hmain, (feature_collection_truthy _ _ Hfs).
Qed.

Lemma write_follows_truth_of_geo_data_witness :
  writes (trace (snd (upload_geo_data
            (Sample.world (Ok 7) (Raise Sample.forbidden) [] None (Some "{}"))
            Sample.geo_path Sample.creds_path false (initial (Sample.content [])))))
  = [].
Proof.
  refine (proj1 (write_follows_truth_of_geo_data
            (Sample.world (Ok 7) (Raise Sample.forbidden) [] None (Some "{}"))
            Sample.geo_path Sample.creds_path false (Sample.content []) 7
            _ _ "{}" (JDict []) _ _ _ _)); reflexivity.
Defined.

(** C2, counterexample: the file holds an empty feature collection, and the
    write call is made, with that empty collection. *)
Lemma empty_collection_is_written :
  let env := Sample.world (Ok 7) (Raise Sample.forbidden) [] None
               (Some Sample.empty_collection_text) in
  let run := upload_geo_data env Sample.geo_path Sample.creds_path false
               (initial (Sample.content [])) in
  parse_geojson env Sample.empty_collection_text = Ok Sample.empty_collection
  /\ features_of Sample.empty_collection = Some []
  /\ writes (trace (snd run)) = [(7, Sample.empty_collection)].
Proof. repeat split. Qed.

(** C3, as the code has it.  After the layer is resolved and the purge (if
    any) is over: when the file is absent, opening it raises
    [FileNotFoundError]; when the file is empty, parsing it raises
    [JSONDecodeError]; either error leaves [upload_geo_data] unhandled, no
    write call is made and nothing is printed.  The write is skipped with
    neither an error nor a message when the file parses to a value that is
    false as a Python condition, and only then: a run that ends without an
    error and made no write call, or printed nothing, read a file that
    parses to such a value. *)
Theorem unreadable_file_raises_and_skips_write
    (env : Env) (geo creds : Path) (refresh : bool) (content : IML -> list Feature)
    (iml : IML) (w1 w2 : World) :
  _get_here_iml env creds (initial content) = (Ok iml, w1) ->
  refresh_block env iml refresh w1 = (Ok tt, w2) ->
  let run := upload_geo_data env geo creds refresh (initial content) in
  (file_system env geo = None ->
     (exists msg, fst run = Raise (PyException "FileNotFoundError" msg))
     /\ writes (trace (snd run)) = []
     /\ prints (trace (snd run)) = prints (trace w2))
  /\ (file_system env geo = Some "" ->
     (exists msg, fst run = Raise (PyException "JSONDecodeError" msg))
     /\ writes (trace (snd run)) = []
     /\ prints (trace (snd run)) = prints (trace w2))
  /\ (forall text geo_data,
     file_system env geo = Some text ->
     parse_geojson env text = Ok geo_data ->
     truthy geo_data = false ->
     fst run = Ok tt
     /\ writes (trace (snd run)) = []
     /\ prints (trace (snd run)) = prints (trace w2))
  /\ (fst run = Ok tt ->
     writes (trace (snd run)) = [] \/ prints (trace (snd run)) = prints (trace w2) ->
     exists text geo_data,
       file_system env geo = Some text
       /\ parse_geojson env text = Ok geo_data
       /\ truthy geo_data = false).
Proof.
  intros Hres Hpurge. cbv zeta.
  destruct (upload_geo_data_phases env geo creds content refresh iml w1 w2 Hres Hpurge)
    as (-> & Hw & _).
  rewrite upload_block_run. unfold path_open. split; [|split; [|split]].
  4:{ destruct (file_system env geo) as [text|]; [|discriminate].
      destruct (parse_geojson env text) as [geo_data|e] eqn:Hparse; [|discriminate].
      destruct (truthy geo_data) eqn:Htruth;
        [|intros _ _; exists text, geo_data; repeat split; assumption].
      cbv zeta. destruct (write_failure env iml geo_data); [discriminate|].
      intros _. cbn [snd trace record_event set_layer]. autorewrite with trace.
      rewrite Hw. cbn. rewrite !app_nil_r. intros [Hnone | Hquiet]; [discriminate|].
      apply (f_equal (@length string)) in Hquiet. rewrite length_app in Hquiet.
      cbn in Hquiet. lia. }
  - intros Habsent. rewrite Habsent. cbn [fst snd trace record_event].
    autorewrite with trace. rewrite Hw. cbn. rewrite app_nil_r.
    split; [now eexists | now split].
  - intros Hempty. rewrite Hempty. cbn [parse_geojson String.eqb fst snd trace record_event].
    autorewrite with trace. rewrite Hw. cbn. rewrite !app_nil_r.
    split; [now eexists | now split].
  - intros text geo_data Hfile Hparse Hfalse. rewrite Hfile, Hparse, Hfalse.
    cbn [fst snd trace record_event]. autorewrite with trace. rewrite Hw. cbn.
    now rewrite !app_nil_r.
Qed.

Lemma unreadable_file_raises_and_skips_write_witness :
  let run := upload_geo_data
               (Sample.world (Ok 7) (Raise Sample.forbidden) [] None (Some ""))
               Sample.geo_path Sample.creds_path false (initial (Sample.content [])) in
  (exists msg, fst run = Raise (PyException "JSONDecodeError" msg))
  /\ writes (trace (snd run)) = [].
Proof.
  cbv zeta.
  destruct (unreadable_file_raises_and_skips_write
              (Sample.world (Ok 7) (Raise Sample.forbidden) [] None (Some ""))
              Sample.geo_path Sample.creds_path false (Sample.content []) 7
              _ _ eq_refl eq_refl) as (_ & Hempty & _).
  destruct (Hempty eq_refl) as (Hraise & Hwrites & _).
  split; [exact Hraise | exact Hwrites].
Defined.

(** C3, counterexample: the file is absent, and the run ends with
    [FileNotFoundError] raised out of [upload_geo_data]. *)
Lemma absent_file_raises :
  let env := Sample.world (Ok 7) (Raise Sample.forbidden) [] None None in
  let run := upload_geo_data env Sample.geo_path Sample.creds_path false
               (initial (Sample.content [])) in
  file_system env Sample.geo_path = None
  /\ fst run = Raise (PyException "FileNotFoundError"
                        "[Errno 2] No such file or directory: 'activities.geojson'")
  /\ fst run <> Ok tt.
Proof. repeat split. discriminate. Qed.

(** C8.  When the file parses to a collection of three features, then
    (the layer being resolved and the purge, if any, over) the write call is
    made exactly once, and its argument is the parsed collection itself:
    its features are the three of the file, in the order of the file, each
    with the identifier it has there. *)
Theorem three_features_written_once
    (env : Env) (geo creds : Path) (refresh : bool) (content : IML -> list Feature)
    (iml : IML) (w1 w2 : World) (text : string) (geo_data f1 f2 f3 : json) :
  _get_here_iml env creds (initial content) = (Ok iml, w1) ->
  refresh_block env iml refresh w1 = (Ok tt, w2) ->
  path_open env geo = Ok text ->
  parse_geojson env text = Ok geo_data ->
  features_of geo_data = Some [f1; f2; f3] ->
  let run := upload_geo_data env geo creds refresh (initial content) in
  exists written,
    writes (trace (snd run)) = [(iml, written)]
    /\ written = geo_data
    /\ features_of written = Some [f1; f2; f3]
    /\ option_map (map id_of) (features_of written) = Some [id_of f1; id_of f2; id_of f3].
Proof.
  intros Hres Hpurge Hopen Hparse Hfs. cbv zeta.
  destruct (upload_geo_data_phases env geo creds content refresh iml w1 w2 Hres Hpurge)
    as (-> & Hw & _).
  exists geo_data. rewrite Hfs. repeat split.
  rewrite upload_block_run, Hopen, Hparse, (feature_collection_truthy _ _ Hfs).
  destruct (write_failure env iml geo_data);
    cbn [snd trace record_event set_layer]; autorewrite with trace;
    rewrite Hw; reflexivity.
Qed.

Lemma three_features_written_once_witness :
  let run := upload_geo_data
               (Sample.world (Ok 7) (Raise Sample.forbidden) (Sample.stored_features 2)
                  None (Some Sample.three_rides_text))
               Sample.geo_path Sample.creds_path true
               (initial (Sample.content (Sample.stored_features 2))) in
  exists written,
    writes (trace (snd run)) = [(7, written)]
    /\ written = Sample.three_rides
    /\ features_of written
       = Some [Sample.ride "a1"; Sample.ride "b2"; Sample.ride "c3"]
    /\ option_map (map id_of) (features_of written)
       = Some [Some (JStr "a1"); Some (JStr "b2"); Some (JStr "c3")].
Proof.
  exact (three_features_written_once
           (Sample.world (Ok 7) (Raise Sample.forbidden) (Sample.stored_features 2)
              None (Some Sample.three_rides_text))
           Sample.geo_path Sample.creds_path true
           (Sample.content (Sample.stored_features 2)) 7 _ _
           Sample.three_rides_text Sample.three_rides
           (Sample.ride "a1") (Sample.ride "b2") (Sample.ride "c3")
           eq_refl eq_refl eq_refl eq_refl eq_refl).
Defined.

(** C6.  Without [refresh], whatever the layers hold and whatever the
    service would answer, a run makes no delete call and no search call;
    a layer is left as it was, unless it is the resolved layer and the run
    completed its single write to it, which then is all that happened to it. *)
Theorem no_refresh_no_delete_no_search
    (env : Env) (geo creds : Path) (content : IML -> list Feature) :
  let run := upload_geo_data env geo creds false (initial content) in
  length (deletes (trace (snd run))) = 0
  /\ length (searches (trace (snd run))) = 0
  /\ forall i,
       layers (snd run) i = content i
       \/ exists geo_data,
            fst run = Ok tt
            /\ writes (trace (snd run)) = [(i, geo_data)]
            /\ layers (snd run) i = write_effect env geo_data (content i).
Proof.
  cbv zeta. unfold upload_geo_data, bind.
  destruct (_get_here_iml env creds (initial content)) as [r w1] eqn:Hres.
  apply get_here_iml_frame in Hres as (Hlay & evs & Htr & Hev).
  cbn [initial trace layers app] in Htr, Hlay.
  apply resolver_events_silent in Hev as (Hd & Hw & Hs & _).
  destruct r as [iml|e].
  2:{ cbn [fst snd]. rewrite Htr, Hd, Hs, Hlay. repeat split. now left. }
  unfold refresh_block, ret. rewrite upload_block_run.
  destruct (path_open env geo) as [text|e].
  2:{ cbn [fst snd trace layers record_event]. autorewrite with trace.
      rewrite Htr, Hd, Hs, Hlay. repeat split. now left. }
  destruct (parse_geojson env text) as [geo_data|e].
  2:{ cbn [fst snd trace layers record_event]. autorewrite with trace.
      rewrite Htr, Hd, Hs, Hlay. repeat split. now left. }
  destruct (truthy geo_data).
  2:{ cbn [fst snd trace layers record_event]. autorewrite with trace.
      rewrite Htr, Hd, Hs, Hlay. repeat split. now left. }
  cbv zeta. destruct (write_failure env iml geo_data);
    cbn [fst snd trace layers record_event set_layer]; autorewrite with trace;
    rewrite Htr, Hd, Hs, ?Hw, Hlay; repeat split; try (now left).
  intros i. destruct (Nat.eqb_spec i iml) as [->|Hne]; [right | now left].
  exists geo_data. repeat split.
Qed.

(** C7.  With [refresh] set, when the layer is resolved and the search
    finds no feature, the list of batches is empty and no delete call is
    made; the run goes on with the upload block: the file is opened, and
    when it parses to a value that is true as a Python condition the write
    call is made with it. *)
Theorem refresh_of_empty_layer_deletes_nothing
    (env : Env) (geo creds : Path) (content : IML -> list Feature)
    (iml : IML) (w1 : World) :
  _get_here_iml env creds (initial content) = (Ok iml, w1) ->
  search_result env iml = Ok [] ->
  let run := upload_geo_data env geo creds true (initial content) in
  feature_ids_chunks (map feature_id []) = []
  /\ length (deletes (trace (snd run))) = 0
  /\ run = upload_block env iml geo
             (record_event (EPrint deleting_message) (record_event (ESearch iml) w1))
  /\ opens (trace (snd run)) = [geo]
  /\ (forall text geo_data,
        path_open env geo = Ok text ->
        parse_geojson env text = Ok geo_data ->
        truthy geo_data = true ->
        writes (trace (snd run)) = [(iml, geo_data)]).
Proof.
  intros Hres Hsearch. cbv zeta.
  assert (Hrun : upload_geo_data env geo creds true (initial content)
                 = upload_block env iml geo
                     (record_event (EPrint deleting_message)
                        (record_event (ESearch iml) w1))).
  { unfold upload_geo_data. unfold bind at 1. rewrite Hres. unfold bind at 1.
    now rewrite (refresh_block_true_run env iml w1 [] Hsearch). }
  apply get_here_iml_frame in Hres as (_ & evs & Htr & Hev).
  cbn [initial trace app] in Htr.
  apply resolver_events_silent in Hev as (Hd & Hw & _ & Ho).
  split; [reflexivity|]. rewrite Hrun. rewrite upload_block_run.
  repeat split.
  - destruct (path_open env geo) as [text|e];
      [destruct (parse_geojson env text) as [geo_data|e];
       [destruct (truthy geo_data);
        [cbv zeta; destruct (write_failure env iml geo_data)|]|]|];
      cbn [snd trace record_event set_layer]; autorewrite with trace;
      now rewrite Htr, Hd.
  - destruct (path_open env geo) as [text|e];
      [destruct (parse_geojson env text) as [geo_data|e];
       [destruct (truthy geo_data);
        [cbv zeta; destruct (write_failure env iml geo_data)|]|]|];
      cbn [snd trace record_event set_layer]; autorewrite with trace;
      now rewrite Htr, Ho.
  - intros text geo_data Hopen Hparse Htrue. rewrite Hopen, Hparse, Htrue.
    cbv zeta. destruct (write_failure env iml geo_data);
      cbn [snd trace record_event set_layer]; autorewrite with trace;
      now rewrite Htr, Hw.
Qed.

Lemma refresh_of_empty_layer_deletes_nothing_witness :
  let run := upload_geo_data
               (Sample.world (Ok 7) (Raise Sample.forbidden) [] None
                  (Some Sample.three_rides_text))
               Sample.geo_path Sample.creds_path true (initial (Sample.content [])) in
  length (deletes (trace (snd run))) = 0
  /\ opens (trace (snd run)) = [Sample.geo_path]
  /\ writes (trace (snd run)) = [(7, Sample.three_rides)].
Proof.
  cbv zeta.
  destruct (refresh_of_empty_layer_deletes_nothing
              (Sample.world (Ok 7) (Raise Sample.forbidden) [] None
                 (Some Sample.three_rides_text))
              Sample.geo_path Sample.creds_path (Sample.content []) 7 _
              eq_refl eq_refl) as (_ & Hdel & _ & Hopen & Hwrite).
  split; [exact Hdel|]. split; [exact Hopen|].
  exact (Hwrite Sample.three_rides_text Sample.three_rides eq_refl eq_refl eq_refl).
Defined.

Section Refresh.

Variable env : Env.
Variables geo creds : Path.
Variable content : IML -> list Feature.
Variable iml : IML.
Variable w1 : World.

Hypothesis resolved : _get_here_iml env creds (initial content) = (Ok iml, w1).

(** A refreshing run is the loop over the batches, followed by the upload
    block when the loop completes. *)
Lemma refreshing_run fs :
  search_result env iml = Ok fs ->
  upload_geo_data env geo creds true (initial content) =
    match for_each (feature_ids_chunks (map feature_id fs)) (delete_features env iml)
            (record_event (EPrint deleting_message) (record_event (ESearch iml) w1))
    with
    | (Ok _, w') => upload_block env iml geo w'
    | (Raise e, w') => (Raise e, w')
    end.
Proof.
  intros found.
  unfold upload_geo_data. unfold bind at 1. rewrite resolved. unfold bind at 1.
  now rewrite (refresh_block_true_run env iml w1 fs found).
Qed.

(** Where the loop starts: after the search and the progress line. *)
Lemma before_the_loop :
  forall w0,
    w0 = record_event (EPrint deleting_message) (record_event (ESearch iml) w1) ->
    deletes (trace w0) = [] /\ writes (trace w0) = [] /\ opens (trace w0) = []
    /\ layers w0 = content
    /\ trace w0 = trace w1 ++ [ESearch iml; EPrint deleting_message].
Proof.
  intros w0 ->.
  destruct (get_here_iml_frame env creds _ _ _ resolved) as (Hlay & evs & Htr & Hev).
  apply resolver_events_silent in Hev as (Hd & Hw & _ & Ho).
  cbn [trace layers record_event initial app] in *.
  autorewrite with trace. rewrite Htr, Hd, Hw, Ho.
  repeat split; try assumption. now rewrite <- app_assoc.
Qed.

End Refresh.

(** C9.  In a refreshing run (layer resolved, search answered) the delete
    calls made are the batches in their order, one after the other: the
    deletes of the trace are a prefix of the list of batches.  When the
    delete call of batch [k] fails with [e], the batches before it having been
    deleted, the run ends with [e] raised out of [upload_geo_data], the
    failed call is the last call of the trace, and neither a later batch is
    deleted nor the file opened nor anything written. *)
Theorem failed_delete_propagates
    (env : Env) (geo creds : Path) (content : IML -> list Feature)
    (iml : IML) (w1 : World) (fs : list Feature) :
  _get_here_iml env creds (initial content) = (Ok iml, w1) ->
  search_result env iml = Ok fs ->
  let chunks := feature_ids_chunks (map feature_id fs) in
  let run := upload_geo_data env geo creds true (initial content) in
  (exists n, n <= length chunks
     /\ deletes (trace (snd run)) = map (pair iml) (firstn n chunks))
  /\ (forall k e,
        k < length chunks ->
        (forall j, j < k -> delete_failure env j iml (nth j chunks []) = None) ->
        delete_failure env k iml (nth k chunks []) = Some e ->
        fst run = Raise e
        /\ trace (snd run)
           = trace w1 ++ [ESearch iml; EPrint deleting_message]
               ++ map (EDelete iml) (firstn (S k) chunks)
        /\ deletes (trace (snd run)) = map (pair iml) (firstn (S k) chunks)
        /\ writes (trace (snd run)) = []
        /\ opens (trace (snd run)) = []).
Proof.
  intros Hres Hsearch. cbv zeta.
  rewrite (refreshing_run env geo creds content iml w1 Hres fs Hsearch).
  destruct (before_the_loop env creds content iml w1 Hres _ eq_refl)
    as (Hd0 & Hw0 & Ho0 & _ & Htr0).
  set (w0 := record_event (EPrint deleting_message) (record_event (ESearch iml) w1)) in *.
  set (chunks := feature_ids_chunks (map feature_id fs)).
  split.
  - destruct (for_each chunks (delete_features env iml) w0) as [r w'] eqn:Hloop.
    apply delete_loop_prefix in Hloop as (n & Hn & Htr).
    exists n. split; [exact Hn|].
    destruct r as [[]|e].
    + destruct (upload_block env iml geo w') as [r2 w''] eqn:Hup.
      apply upload_block_frame in Hup as (evs & Htr2 & Hev).
      apply upload_events_silent in Hev as (Hd & _).
      cbn [snd]. rewrite Htr2, Htr. autorewrite with trace.
      now rewrite Hd0, Hd, deletes_of_batches, app_nil_r.
    + cbn [snd]. rewrite Htr. autorewrite with trace.
      now rewrite Hd0, deletes_of_batches.
  - intros k e Hk Hbefore Hfail.
    destruct (delete_loop_fail env iml chunks w0 k e Hk) as (w' & Hloop & Htr).
    + intros j Hj. rewrite Hd0. cbn [length Nat.add]. now apply Hbefore.
    + rewrite Hd0. cbn [length Nat.add]. exact Hfail.
    + rewrite Hloop. cbn [fst snd]. rewrite Htr. autorewrite with trace.
      rewrite Hd0, Hw0, Ho0, deletes_of_batches, writes_of_batches, opens_of_batches.
      repeat split. now rewrite Htr0, <- app_assoc.
Qed.

Lemma failed_delete_propagates_witness :
  let remote := Sample.stored_features 250 in
  let run := upload_geo_data
               (Sample.world (Ok 7) (Raise Sample.forbidden) remote (Some 1)
                  (Some Sample.three_rides_text))
               Sample.geo_path Sample.creds_path true (initial (Sample.content remote)) in
  fst run = Raise Sample.unavailable
  /\ map (fun d => length (snd d)) (deletes (trace (snd run))) = [100; 100]
  /\ writes (trace (snd run)) = [].
Proof.
  cbv zeta.
  destruct (failed_delete_propagates
              (Sample.world (Ok 7) (Raise Sample.forbidden) (Sample.stored_features 250)
                 (Some 1) (Some Sample.three_rides_text))
              Sample.geo_path Sample.creds_path
              (Sample.content (Sample.stored_features 250)) 7 _
              (Sample.stored_features 250) eq_refl eq_refl) as (_ & Hfail).
  destruct (Hfail 1 Sample.unavailable) as (Hraise & _ & Hdel & Hwrites & _).
  - vm_compute. lia.
  - intros j Hj. destruct j; [reflexivity | lia].
  - reflexivity.
  - split; [exact Hraise|]. split; [|exact Hwrites].
    rewrite Hdel. vm_compute. reflexivity.
Defined.

(** C10.  In a refreshing run every delete call comes before the file is
    opened: the trace splits into a part without any opening and a part
    without any delete.  So when the search returns all the features of
    the resolved layer, every batch is deleted, and then the file cannot be
    opened or cannot be parsed, the run ends with that error raised, nothing
    written, and the layer empty. *)
Theorem deletes_precede_file_open
    (env : Env) (geo creds : Path) (content : IML -> list Feature) :
  let run := upload_geo_data env geo creds true (initial content) in
  (exists before after,
     trace (snd run) = before ++ after /\ opens before = [] /\ deletes after = [])
  /\ (forall iml w1 e,
        _get_here_iml env creds (initial content) = (Ok iml, w1) ->
        search_result env iml = Ok (content iml) ->
        (forall j, j < length (feature_ids_chunks (map feature_id (content iml))) ->
           delete_failure env j iml
             (nth j (feature_ids_chunks (map feature_id (content iml))) []) = None) ->
        (path_open env geo = Raise e
         \/ exists text, path_open env geo = Ok text /\ parse_geojson env text = Raise e) ->
        fst run = Raise e
        /\ deletes (trace (snd run))
           = map (pair iml) (feature_ids_chunks (map feature_id (content iml)))
        /\ writes (trace (snd run)) = []
        /\ layers (snd run) iml = []).
Proof.
  cbv zeta. split.
  - unfold upload_geo_data. unfold bind at 1.
    destruct (_get_here_iml env creds (initial content)) as [r w1] eqn:Hres.
    apply get_here_iml_frame in Hres as (_ & evs1 & Htr1 & Hev1).
    cbn [initial trace app] in Htr1.
    apply resolver_events_silent in Hev1 as (_ & _ & _ & Ho1).
    destruct r as [iml|e].
    2:{ exists evs1, []. cbn [snd]. now rewrite Htr1, app_nil_r. }
    unfold bind at 1.
    destruct (refresh_block env iml true w1) as [r2 w2] eqn:Hpurge.
    apply refresh_block_frame in Hpurge as (evs2 & Htr2 & Hev2).
    apply purge_events_silent in Hev2 as (_ & Ho2 & _).
    assert (Ho : opens (trace w2) = [])
      by now rewrite Htr2, Htr1, opens_app, Ho1, Ho2.
    destruct r2 as [[]|e].
    2:{ exists (trace w2), []. cbn [snd]. now rewrite app_nil_r. }
    destruct (upload_block env iml geo w2) as [r3 w3] eqn:Hup.
    apply upload_block_frame in Hup as (evs3 & Htr3 & Hev3).
    apply upload_events_silent in Hev3 as (Hd3 & _).
    exists (trace w2), evs3. now cbn [snd].
  - intros iml w1 e Hres Hsearch Hok Hfile.
    rewrite (refreshing_run env geo creds content iml w1 Hres _ Hsearch).
    destruct (before_the_loop env creds content iml w1 Hres _ eq_refl)
      as (Hd0 & Hw0 & _ & Hlay0 & _).
    set (w0 := record_event (EPrint deleting_message) (record_event (ESearch iml) w1)) in *.
    destruct (delete_loop_ok env iml (feature_ids_chunks (map feature_id (content iml))) w0)
      as (w' & Hloop & Htr & Hlay & _).
    { intros j Hj. rewrite Hd0. cbn [length Nat.add]. now apply Hok. }
    rewrite Hloop, upload_block_run.
    assert (Hempty : layers w' iml = []).
    { rewrite Hlay, Hlay0. unfold feature_ids_chunks.
      rewrite chunks_of_concat by apply Nat.lt_0_succ.
      apply without_ids_all. intros f Hf. now apply in_map. }
    assert (Hdel : deletes (trace w')
                   = map (pair iml) (feature_ids_chunks (map feature_id (content iml))))
      by now rewrite Htr, deletes_app, Hd0, deletes_of_batches.
    assert (Hwr : writes (trace w') = [])
      by now rewrite Htr, writes_app, Hw0, writes_of_batches.
    destruct Hfile as [Hopen | (text & Hopen & Hparse)].
    + rewrite Hopen. cbn [fst snd trace layers record_event].
      autorewrite with trace. rewrite Hdel, Hwr, Hempty. cbn. now rewrite app_nil_r.
    + rewrite Hopen, Hparse. cbn [fst snd trace layers record_event].
      autorewrite with trace. rewrite Hdel, Hwr, Hempty. cbn. now rewrite !app_nil_r.
Qed.

Lemma deletes_precede_file_open_witness :
  let remote := Sample.stored_features 250 in
  let run := upload_geo_data
               (Sample.world (Ok 7) (Raise Sample.forbidden) remote None None)
               Sample.geo_path Sample.creds_path true (initial (Sample.content remote)) in
  (exists msg, fst run = Raise (PyException "FileNotFoundError" msg))
  /\ length (deletes (trace (snd run))) = 3
  /\ layers (snd run) 7 = [].
Proof.
  cbv zeta.
  destruct (deletes_precede_file_open
              (Sample.world (Ok 7) (Raise Sample.forbidden) (Sample.stored_features 250)
                 None None)
              Sample.geo_path Sample.creds_path
              (Sample.content (Sample.stored_features 250))) as (_ & Hpurged).
  destruct (Hpurged 7 _
              (PyException "FileNotFoundError"
                 "[Errno 2] No such file or directory: 'activities.geojson'")
              eq_refl eq_refl) as (Hraise & Hdel & _ & Hlayer).
  - intros j _. reflexivity.
  - left. reflexivity.
  - split; [eexists; exact Hraise|]. split; [|exact Hlayer].
    rewrite Hdel. vm_compute. reflexivity.
Defined.


(** * Further properties of the two functions *)

(** ** Batches: sizes and edge cases *)

Lemma Forall_firstn {A : Type} (P : A -> Prop) (n : nat) (l : list A) :
  Forall P l -> Forall P (firstn n l).
Proof.
  intros Hall. revert n. induction Hall as [|x l Hx Hl IH]; intros [|n]; cbn;
    constructor; auto.
Qed.

Lemma chunks_of_bounds {A : Type} (size : nat) (l : list A) :
  0 < size ->
  Forall (fun c => 1 <= length c <= size) (chunks_of size l).
Proof.
  intros Hpos. apply Forall_forall. intros c Hin.
  destruct (In_nth _ _ [] Hin) as (i & Hi & <-).
  destruct (chunks_of_nth size Hpos l i Hi) as [-> Hb].
  rewrite slice_length. lia.
Qed.

Lemma feature_ids_chunks_bounds ids :
  Forall (fun c => 1 <= length c <= 100) (feature_ids_chunks ids).
Proof. apply (chunks_of_bounds 100), Nat.lt_0_succ. Qed.

(** X14.  No batch is empty and none holds more than 100 identifiers; no
    identifier gives no batch at all, and up to 100 identifiers give one
    batch, the sequence itself. *)
Theorem feature_ids_chunks_edge_cases (feature_ids : list string) :
  Forall (fun batch => 1 <= length batch <= 100) (feature_ids_chunks feature_ids)
  /\ (feature_ids = [] <-> feature_ids_chunks feature_ids = [])
  /\ (1 <= length feature_ids <= 100 -> feature_ids_chunks feature_ids = [feature_ids]).
Proof.
  assert (Hpos : 0 < 100) by apply Nat.lt_0_succ.
  pose proof (chunks_of_length 100 Hpos feature_ids) as Hlen.
  pose proof (chunks_of_concat 100 Hpos feature_ids) as Hcat.
  change (chunks_of 100 feature_ids) with (feature_ids_chunks feature_ids) in Hlen, Hcat.
  split; [apply feature_ids_chunks_bounds|]. split; [split|].
  - intros ->. reflexivity.
  - intros Hnil. now rewrite Hnil in Hcat.
  - intros Hsmall.
    assert (Hone : length (feature_ids_chunks feature_ids) = 1).
    { rewrite Hlen. unfold ceil_div.
      destruct (Nat.eq_dec (length feature_ids) 100) as [->|Hne].
      - now rewrite Nat.div_same, Nat.Div0.mod_same.
      - rewrite Nat.div_small, Nat.mod_small by lia.
        destruct (Nat.eqb_spec (length feature_ids) 0); lia. }
    destruct (feature_ids_chunks feature_ids) as [|c [|c' rest]]; try discriminate Hone.
    cbn in Hcat. rewrite app_nil_r in Hcat. now subst c.
Qed.

Lemma feature_ids_chunks_edge_cases_witness :
  let feature_ids := map feature_id (Sample.stored_features 100) in
  feature_ids_chunks feature_ids = [feature_ids].
Proof.
  cbv zeta.
  apply (feature_ids_chunks_edge_cases (map feature_id (Sample.stored_features 100))).
  vm_compute. split; [lia | apply le_n].
Defined.

(** ** The resolver: what it calls and what it lets through *)

Lemma lookups_app a b : lookups (a ++ b) = lookups a ++ lookups b.
Proof. apply flat_map_app. Qed.

Lemma closes_app a b : closes (a ++ b) = closes a ++ closes b.
Proof. apply flat_map_app. Qed.

Lemma credential_loads_app a b :
  credential_loads (a ++ b) = credential_loads a ++ credential_loads b.
Proof. apply flat_map_app. Qed.

#[local] Hint Rewrite lookups_app closes_app credential_loads_app : trace.

Lemma resolver_events_never_close evs :
  forallb resolver_event evs = true -> closes evs = [].
Proof.
  induction evs as [|e evs IH]; cbn [forallb]; [reflexivity|].
  intros [He Hevs]%andb_prop. destruct e; try discriminate He; cbn; auto.
Qed.

(** Every run of the resolver, outcome by outcome. *)
Lemma get_here_iml_calls env path w r w' :
  _get_here_iml env path w = (r, w') ->
  layers w' = layers w
  /\ exists evs,
       trace w' = trace w ++ evs
       /\ forallb resolver_event evs = true
       /\ credential_loads evs = [path]
       /\ length (creations evs) <= length (lookups evs) <= 1
       /\ (forall iml, r = Ok iml ->
             exists credentials,
               credentials_file env path = Ok credentials
               /\ (lookup_layer env HERE_CATALOG_HRN HERE_LAYER_ID credentials = Ok iml
                   \/ new_layer env HERE_CATALOG_ID layer_details credentials = Ok iml)).
Proof.
  unfold_resolver.
  destruct (credentials_file env path) as [credentials|e] eqn:Hcred.
  2:{ intros [= <- <-]. split; [reflexivity|]. eexists. split; [reflexivity|].
      cbn. repeat split; auto. discriminate. }
  destruct (lookup_layer env _ _ credentials) as [iml|e] eqn:Hlookup.
  { intros [= <- <-]. split; [reflexivity|]. cbn [trace record_event].
    rewrite <- !app_assoc. eexists. split; [reflexivity|].
    cbn. repeat split; auto. intros ? [= <-]. eauto. }
  destruct (is_Exception e).
  2:{ intros [= <- <-]. split; [reflexivity|]. cbn [trace record_event].
      rewrite <- !app_assoc. eexists. split; [reflexivity|].
      cbn. repeat split; auto. discriminate. }
  destruct (new_layer env _ _ credentials) as [iml|e'] eqn:Hnew.
  { intros [= <- <-]. split; [reflexivity|]. cbn [trace record_event].
    rewrite <- !app_assoc. eexists. split; [reflexivity|].
    cbn. repeat split; auto. intros ? [= <-]. eauto. }
  destruct (is_Exception e');
    intros [= <- <-]; (split; [reflexivity|]); cbn [trace record_event];
    rewrite <- !app_assoc; eexists; (split; [reflexivity|]);
    cbn; repeat split; auto; discriminate.
Qed.

Lemma creation_split_unique pre x tail : forall before y after,
  pre ++ x :: tail = before ++ y :: after ->
  creations pre = [] -> creations tail = [] -> creations [y] <> [] ->
  before = pre /\ y = x /\ after = tail.
Proof.
  induction pre as [|p ps IH]; intros before y after Heq Hpre Htail Hy.
  - destruct before as [|b bs]; cbn in Heq.
    + now injection Heq as -> ->.
    + injection Heq as _ ->. rewrite creations_app in Htail.
      apply app_eq_nil in Htail as [_ Htail].
      change (y :: after) with ([y] ++ after) in Htail. rewrite creations_app in Htail.
      apply app_eq_nil in Htail as [Htail _]. contradiction.
  - change (p :: ps) with ([p] ++ ps) in Hpre. rewrite creations_app in Hpre.
    apply app_eq_nil in Hpre as [Hp Hps].
    destruct before as [|b bs]; cbn in Heq.
    + injection Heq as -> _. contradiction.
    + injection Heq as -> Heq.
      destruct (IH bs y after Heq Hps Htail Hy) as (-> & -> & ->). now repeat split.
Qed.

(** A run of the resolver creates nothing, or it is the caught failure of
    the lookup followed by the creation. *)
Lemma get_here_iml_order env path content :
  let run := _get_here_iml env path (initial content) in
  creations (trace (snd run)) = []
  \/ exists credentials cls msg locating missing tail,
       credentials_file env path = Ok credentials
       /\ lookup_layer env HERE_CATALOG_HRN HERE_LAYER_ID credentials
          = Raise (PyException cls msg)
       /\ trace (snd run)
          = [ECredentials path; EPrint locating;
             ELookup HERE_CATALOG_HRN HERE_LAYER_ID; EPrint missing]
              ++ ECreate HERE_CATALOG_ID "Strava Analysis Tool" "Strava Analysis Tool"
                   "Strava data collected by Strava Analysis Tool" layer_details
                 :: tail
       /\ creations tail = [] /\ lookups tail = [].
Proof.
  cbv zeta. unfold_resolver.
  destruct (credentials_file env path) as [credentials|e] eqn:Hcred; [|now left].
  destruct (lookup_layer env _ _ credentials) as [iml|e] eqn:Hlookup; [now left|].
  destruct e as [cls msg| |]; cbn [is_Exception]; try (now left).
  right. exists credentials, cls, msg.
  destruct (new_layer env _ _ credentials) as [iml|e'];
    [|destruct (is_Exception e')];
    cbn [snd trace record_event initial app];
    do 3 eexists; (split; [reflexivity|]); (split; [exact Hlookup|]);
    (split; [reflexivity|]); now split.
Qed.

(** X4.  Whatever the service answers, [_get_here_iml] loads the
    credentials once, looks the layer up at most once and creates at most
    once, and only after a lookup; it searches, deletes, writes and opens
    nothing and leaves every layer as it is; and a handle it returns is the
    one the lookup or the creation gave.  The creation comes after the
    lookup in the trace: wherever a creation call stands, the lookup is
    before it, no creation is before it and neither a lookup nor a creation
    is after it; and it is made only when the credentials were loaded and
    the lookup raised an exception deriving from [Exception]. *)
Theorem get_here_iml_calls_only_the_resolver_api
    (env : Env) (path : Path) (content : IML -> list Feature) :
  let run := _get_here_iml env path (initial content) in
  credential_loads (trace (snd run)) = [path]
  /\ length (creations (trace (snd run))) <= length (lookups (trace (snd run))) <= 1
  /\ searches (trace (snd run)) = []
  /\ deletes (trace (snd run)) = []
  /\ writes (trace (snd run)) = []
  /\ opens (trace (snd run)) = []
  /\ layers (snd run) = content
  /\ (forall iml, fst run = Ok iml ->
        exists credentials,
          credentials_file env path = Ok credentials
          /\ (lookup_layer env HERE_CATALOG_HRN HERE_LAYER_ID credentials = Ok iml
              \/ new_layer env HERE_CATALOG_ID layer_details credentials = Ok iml))
  /\ (forall before catalog_id name summary description details after,
        trace (snd run)
          = before ++ ECreate catalog_id name summary description details :: after ->
        lookups before = [(HERE_CATALOG_HRN, HERE_LAYER_ID)]
        /\ creations before = []
        /\ lookups after = []
        /\ creations after = [])
  /\ (creations (trace (snd run)) <> [] ->
        exists credentials cls msg,
          credentials_file env path = Ok credentials
          /\ lookup_layer env HERE_CATALOG_HRN HERE_LAYER_ID credentials
             = Raise (PyException cls msg)).
Proof.
  cbv zeta.
  pose proof (get_here_iml_order env path content) as Horder. cbv zeta in Horder.
  destruct (_get_here_iml env path (initial content)) as [r w'] eqn:Hrun.
  apply get_here_iml_calls in Hrun as (Hlay & evs & Htr & Hev & Hload & Hcount & Hhandle).
  cbn [initial trace layers app fst snd] in *. subst evs.
  apply resolver_events_silent in Hev as (Hd & Hw & Hs & Ho).
  repeat match goal with |- _ /\ _ => split end; try assumption; try apply Hcount.
  - intros before catalog_id name summary description details after Hsplit.
    destruct Horder
      as [Hnone | (credentials & cls & msg & locating & missing & tail
                   & _ & _ & Htrace & Htail & Hlook)].
    + rewrite Hsplit, creations_app in Hnone. apply app_eq_nil in Hnone as [_ Hnone].
      discriminate Hnone.
    + rewrite Htrace in Hsplit.
      apply (creation_split_unique
               [ECredentials path; EPrint locating;
                ELookup HERE_CATALOG_HRN HERE_LAYER_ID; EPrint missing])
        in Hsplit as (-> & _ & ->);
        [now repeat split | reflexivity | exact Htail | discriminate].
  - intros Hcreated.
    destruct Horder
      as [Hnone | (credentials & cls & msg & _ & _ & _ & Hcred & Hlookup & _)];
      [contradiction | now exists credentials, cls, msg].
Qed.

Lemma get_here_iml_calls_only_the_resolver_api_witness :
  let env := Sample.world (Raise Sample.not_found) (Ok 7) [] None None in
  let run := _get_here_iml env Sample.creds_path (initial (Sample.content [])) in
  (exists credentials,
     credentials_file env Sample.creds_path = Ok credentials
     /\ (lookup_layer env HERE_CATALOG_HRN HERE_LAYER_ID credentials = Ok 7
         \/ new_layer env HERE_CATALOG_ID layer_details credentials = Ok 7))
  /\ (exists before created after,
        trace (snd run) = before ++ created :: after
        /\ creations [created] = [HERE_CATALOG_ID]
        /\ lookups before = [(HERE_CATALOG_HRN, HERE_LAYER_ID)]
        /\ lookups after = []).
Proof.
  cbv zeta.
  destruct (get_here_iml_calls_only_the_resolver_api
              (Sample.world (Raise Sample.not_found) (Ok 7) [] None None)
              Sample.creds_path (Sample.content []))
    as (_ & _ & _ & _ & _ & _ & _ & Hhandle & Horder & _).
  split; [exact (Hhandle 7 eq_refl)|].
  destruct (Horder
              [ECredentials Sample.creds_path;
               EPrint "[HERE] Locating the HERE interactive map layer for Strava Analysis Tool";
               ELookup HERE_CATALOG_HRN HERE_LAYER_ID;
               EPrint ("[HERE] No existing HERE interactive map layer found. Creating a "
                       ++ "new catalog and IML for Strava Analysis Tool.")]
              HERE_CATALOG_ID "Strava Analysis Tool" "Strava Analysis Tool"
              "Strava data collected by Strava Analysis Tool" layer_details
              [EPrint ("[HERE] Created a new catalog with ID '" ++ HERE_CATALOG_ID
                       ++ "' and interactive map layer with ID '" ++ HERE_LAYER_ID ++ "'")]
              eq_refl) as (Hbefore & _ & Hafter & _).
  eexists _, (ECreate HERE_CATALOG_ID "Strava Analysis Tool" "Strava Analysis Tool"
                "Strava data collected by Strava Analysis Tool" layer_details), _.
  split; [|split; [reflexivity | split; [exact Hbefore | exact Hafter]]].
  reflexivity.
Defined.

(** X1.  The credentials are loaded outside any [try]: when loading them
    raises, whatever the exception, [_get_here_iml] raises it without
    looking up or creating anything and without printing, and
    [upload_geo_data] ends there with the same exception. *)
Theorem credentials_failure_propagates
    (env : Env) (geo creds : Path) (refresh : bool)
    (content : IML -> list Feature) (e : exn) :
  credentials_file env creds = Raise e ->
  _get_here_iml env creds (initial content)
    = (Raise e, {| layers := content; trace := [ECredentials creds] |})
  /\ upload_geo_data env geo creds refresh (initial content)
     = (Raise e, {| layers := content; trace := [ECredentials creds] |}).
Proof.
  intros Hcred. unfold upload_geo_data. unfold bind at 1. unfold_resolver.
  rewrite Hcred. split; reflexivity.
Qed.

Lemma credentials_failure_propagates_witness :
  let env := Sample.broken (Raise (PyException "FileNotFoundError" "no credentials"))
               (Ok []) None in
  fst (upload_geo_data env Sample.geo_path Sample.creds_path true (initial (Sample.content [])))
  = Raise (PyException "FileNotFoundError" "no credentials").
Proof.
  cbv zeta.
  refine (f_equal fst (proj2 (credentials_failure_propagates _ Sample.geo_path
            Sample.creds_path true (Sample.content [])
            (PyException "FileNotFoundError" "no credentials") _))).
  reflexivity.
Defined.

(** X2.  An exception of the lookup that does not derive from [Exception]
    ([KeyboardInterrupt], [SystemExit]) is not taken for a missing layer:
    it leaves [_get_here_iml] as it is, no creation is attempted, and
    [upload_geo_data] ends with it. *)
Theorem lookup_base_exception_is_not_caught
    (env : Env) (geo creds : Path) (refresh : bool)
    (content : IML -> list Feature) (credentials : Credentials) (e : exn) :
  credentials_file env creds = Ok credentials ->
  lookup_layer env HERE_CATALOG_HRN HERE_LAYER_ID credentials = Raise e ->
  is_Exception e = false ->
  let run := _get_here_iml env creds (initial content) in
  fst run = Raise e
  /\ creations (trace (snd run)) = []
  /\ upload_geo_data env geo creds refresh (initial content) = (Raise e, snd run).
Proof.
  intros Hcred Hlookup Hbase. cbv zeta. unfold upload_geo_data. unfold bind at 1.
  unfold_resolver. rewrite Hcred, Hlookup, Hbase. repeat split.
Qed.

Lemma lookup_base_exception_is_not_caught_witness :
  fst (_get_here_iml (Sample.world (Raise KeyboardInterrupt) (Ok 7) [] None None)
         Sample.creds_path (initial (Sample.content [])))
  = Raise KeyboardInterrupt.
Proof.
  exact (proj1 (lookup_base_exception_is_not_caught
                  (Sample.world (Raise KeyboardInterrupt) (Ok 7) [] None None)
                  Sample.geo_path Sample.creds_path false (Sample.content [])
                  "here-token" KeyboardInterrupt eq_refl eq_refl eq_refl)).
Defined.

(** X3.  When the lookup fails and the creation raises an exception that
    does not derive from [Exception], that exception leaves
    [_get_here_iml] unchanged: it is not replaced by the [SystemExit] that
    reports the service's message. *)
Theorem creation_base_exception_is_not_reported
    (env : Env) (creds : Path) (content : IML -> list Feature)
    (credentials : Credentials) (cls msg : string) (e : exn) :
  credentials_file env creds = Ok credentials ->
  lookup_layer env HERE_CATALOG_HRN HERE_LAYER_ID credentials
    = Raise (PyException cls msg) ->
  new_layer env HERE_CATALOG_ID layer_details credentials = Raise e ->
  is_Exception e = false ->
  let run := _get_here_iml env creds (initial content) in
  fst run = Raise e
  /\ length (creations (trace (snd run))) = 1
  /\ (forall text, fst run = Raise (SystemExit text) -> e = SystemExit text).
Proof.
  intros Hcred Hlookup Hnew Hbase. cbv zeta. unfold_resolver.
  rewrite Hcred, Hlookup. cbn [is_Exception]. rewrite Hnew, Hbase.
  repeat split. cbn. now intros text [= ->].
Qed.

Lemma creation_base_exception_is_not_reported_witness :
  fst (_get_here_iml
         (Sample.world (Raise Sample.not_found) (Raise KeyboardInterrupt) [] None None)
         Sample.creds_path (initial (Sample.content [])))
  = Raise KeyboardInterrupt.
Proof.
  exact (proj1 (creation_base_exception_is_not_reported
                  (Sample.world (Raise Sample.not_found) (Raise KeyboardInterrupt)
                     [] None None)
                  Sample.creds_path (Sample.content [])
                  "here-token" "HTTPError" "404 catalog not found" KeyboardInterrupt
                  eq_refl eq_refl eq_refl eq_refl)).
Defined.

(** ** The purge and the upload: what every run does *)

Lemma searches_of_batches iml chunks : searches (map (EDelete iml) chunks) = [].
Proof. induction chunks as [|c rest IH]; cbn; [reflexivity | exact IH]. Qed.

Lemma closes_of_batches iml chunks : closes (map (EDelete iml) chunks) = [].
Proof. induction chunks as [|c rest IH]; cbn; [reflexivity | exact IH]. Qed.

Lemma batches_are_purge_events iml chunks :
  forallb purge_event (map (EDelete iml) chunks) = true.
Proof. induction chunks as [|c rest IH]; cbn; [reflexivity | exact IH]. Qed.

Section Calls.

Variable env : Env.
Variable iml : IML.

(** The loop touches no other layer, however it ends. *)
Lemma delete_loop_other_layers chunks : forall w r w',
  for_each chunks (delete_features env iml) w = (r, w') ->
  forall i, i <> iml -> layers w' i = layers w i.
Proof.
  induction chunks as [|c rest IH]; intros w r w'.
  - cbn. now intros [= <- <-].
  - cbn [for_each]. unfold bind, delete_features at 1.
    destruct (delete_failure env _ iml c).
    + now intros [= <- <-].
    + intros Hrun i Hi. rewrite (IH _ _ _ Hrun i Hi). cbn [layers set_layer record_event].
      destruct (Nat.eqb_spec i iml); [contradiction | reflexivity].
Qed.


(** Every run of the purge. *)
Lemma refresh_block_calls refresh w r w' :
  refresh_block env iml refresh w = (r, w') ->
  (forall i, i <> iml -> layers w' i = layers w i)
  /\ exists evs,
       trace w' = trace w ++ evs
       /\ forallb purge_event evs = true
       /\ length (searches evs) <= 1
       /\ Forall (eq iml) (searches evs)
       /\ Forall (fun d => fst d = iml /\ 1 <= length (snd d) <= 100) (deletes evs)
       /\ closes evs = [].
Proof.
  unfold refresh_block. destruct refresh.
  - unfold bind at 1, search_features at 1.
    destruct (search_result env iml) as [fs|e].
    + unfold bind at 1, print at 1. intros Hrun. split.
      * intros i Hi. now rewrite (delete_loop_other_layers _ _ _ _ Hrun i Hi).
      * apply delete_loop_prefix in Hrun as (k & _ & Htr).
        exists ([ESearch iml; EPrint deleting_message]
                  ++ map (EDelete iml)
                       (firstn k (feature_ids_chunks (map feature_id fs)))).
        split; [rewrite Htr; cbn [trace record_event]; now rewrite <- !app_assoc|].
        autorewrite with trace.
        rewrite forallb_app, batches_are_purge_events, searches_of_batches,
          deletes_of_batches, closes_of_batches.
        cbn. repeat split; auto.
        apply Forall_map, Forall_firstn.
        eapply Forall_impl; [|apply feature_ids_chunks_bounds].
        cbn. auto.
    + intros [= <- <-]. split; [reflexivity|]. exists [ESearch iml]. cbn. repeat split; auto.
  - intros [= <- <-]. split; [reflexivity|]. exists []. rewrite app_nil_r.
    cbn. repeat split; auto.
Qed.

(** Every run of the upload block. *)
Lemma upload_block_calls path w r w' :
  upload_block env iml path w = (r, w') ->
  (forall i, i <> iml -> layers w' i = layers w i)
  /\ exists evs,
       trace w' = trace w ++ evs
       /\ forallb upload_event evs = true
       /\ opens evs = [path]
       /\ length (writes evs) <= 1
       /\ Forall (fun d => fst d = iml) (writes evs)
       /\ match path_open env path with
          | Ok _ => closes evs = [path] /\ exists before, evs = before ++ [EClose path]
          | Raise _ => closes evs = []
          end.
Proof.
  rewrite upload_block_run.
  destruct (path_open env path) as [text|e].
  2:{ intros [= <- <-]. split; [reflexivity|]. exists [EOpen path]. cbn. repeat split; auto. }
  destruct (parse_geojson env text) as [geo_data|e].
  2:{ intros [= <- <-]. split; [reflexivity|]. cbn [trace record_event].
      rewrite <- !app_assoc. eexists. split; [reflexivity|]. cbn. repeat split; auto.
      now exists [EOpen path]. }
  destruct (truthy geo_data).
  2:{ intros [= <- <-]. split; [reflexivity|]. cbn [trace record_event].
      rewrite <- !app_assoc. eexists. split; [reflexivity|]. cbn. repeat split; auto.
      now exists [EOpen path]. }
  cbv zeta. destruct (write_failure env iml geo_data); intros [= <- <-].
  - split; [reflexivity|]. cbn [trace record_event].
    rewrite <- !app_assoc. eexists. split; [reflexivity|]. cbn. repeat split; auto.
    now exists [EOpen path; EPrint (uploading_message path); EWrite iml geo_data].
  - split.
    + intros i Hi. cbn [layers set_layer record_event].
      destruct (Nat.eqb_spec i iml); [contradiction | reflexivity].
    + cbn [trace set_layer record_event].
      rewrite <- !app_assoc. eexists. split; [reflexivity|]. cbn. repeat split; auto.
      now exists [EOpen path; EPrint (uploading_message path); EWrite iml geo_data].
Qed.

End Calls.

(** A run stops in the resolver, or in the purge, or is the upload block
    after both. *)
Lemma upload_geo_data_cases env geo creds refresh content :
  let run := upload_geo_data env geo creds refresh (initial content) in
  (exists e w1,
     _get_here_iml env creds (initial content) = (Raise e, w1) /\ run = (Raise e, w1))
  \/ (exists iml w1 e w2,
        _get_here_iml env creds (initial content) = (Ok iml, w1)
        /\ refresh_block env iml refresh w1 = (Raise e, w2)
        /\ run = (Raise e, w2))
  \/ (exists iml w1 w2,
        _get_here_iml env creds (initial content) = (Ok iml, w1)
        /\ refresh_block env iml refresh w1 = (Ok tt, w2)
        /\ run = upload_block env iml geo w2).
Proof.
  cbv zeta.
  destruct (_get_here_iml env creds (initial content)) as [[iml|e] w1] eqn:Hres.
  2:{ left. exists e, w1. split; [reflexivity|].
      unfold upload_geo_data, bind. now rewrite Hres. }
  right.
  destruct (refresh_block env iml refresh w1) as [[[]|e] w2] eqn:Hpurge.
  - right. exists iml, w1, w2. repeat split; [exact Hpurge|].
    unfold upload_geo_data, bind. now rewrite Hres, Hpurge.
  - left. exists iml, w1, e, w2. repeat split; [exact Hpurge|].
    unfold upload_geo_data, bind. now rewrite Hres, Hpurge.
Qed.

Lemma purge_events_no_resolver_call evs :
  forallb purge_event evs = true -> lookups evs = [] /\ credential_loads evs = [].
Proof.
  induction evs as [|e evs IH]; cbn [forallb]; [now split|].
  intros [He Hevs]%andb_prop. destruct e; try discriminate He; cbn; auto.
Qed.

Lemma upload_events_no_resolver_call evs :
  forallb upload_event evs = true -> lookups evs = [] /\ credential_loads evs = [].
Proof.
  induction evs as [|e evs IH]; cbn [forallb]; [now split|].
  intros [He Hevs]%andb_prop. destruct e; try discriminate He; cbn; auto.
Qed.

(** The trace of any run: the calls of the resolver, then those of the
    purge, then those of the upload block. *)
Lemma upload_geo_data_anatomy env geo creds refresh content :
  exists evs1 evs2 evs3,
    trace (snd (upload_geo_data env geo creds refresh (initial content)))
      = evs1 ++ evs2 ++ evs3
    /\ (forallb resolver_event evs1 = true
        /\ credential_loads evs1 = [creds]
        /\ length (creations evs1) <= length (lookups evs1) <= 1)
    /\ (forallb purge_event evs2 = true
        /\ length (searches evs2) <= 1
        /\ Forall (fun d => 1 <= length (snd d) <= 100) (deletes evs2)
        /\ closes evs2 = [])
    /\ (forallb upload_event evs3 = true
        /\ length (writes evs3) <= 1
        /\ length (closes evs3) <= length (opens evs3) <= 1).
Proof.
  assert (Hweaken : forall iml ds,
            Forall (fun d : IML * list string =>
                      fst d = iml /\ 1 <= length (snd d) <= 100) ds ->
            Forall (fun d => 1 <= length (snd d) <= 100) ds).
  { intros iml ds. apply Forall_impl. tauto. }
  destruct (upload_geo_data_cases env geo creds refresh content)
    as [(e & w1 & Hres & Hrun)
       | [(iml & w1 & e & w2 & Hres & Hpurge & Hrun)
         | (iml & w1 & w2 & Hres & Hpurge & Hrun)]];
    rewrite Hrun;
    apply get_here_iml_calls in Hres as (_ & evs1 & Htr1 & Hev1 & Hload & Hcount & _);
    cbn [initial trace app] in Htr1.
  - exists evs1, [], []. cbn [snd]. rewrite Htr1, !app_nil_r. cbn. repeat split; auto; lia.
  - apply refresh_block_calls in Hpurge as (_ & evs2 & Htr2 & Hev2 & Hs & _ & Hd & Hc).
    exists evs1, evs2, []. cbn [snd]. rewrite Htr2, Htr1, !app_nil_r.
    cbn. repeat split; eauto; lia.
  - apply refresh_block_calls in Hpurge as (_ & evs2 & Htr2 & Hev2 & Hs & _ & Hd & Hc).
    destruct (upload_block env iml geo w2) as [r3 w3] eqn:Hup.
    apply upload_block_calls in Hup as (_ & evs3 & Htr3 & Hev3 & Ho & Hw & _ & Hclose).
    exists evs1, evs2, evs3. cbn [snd]. rewrite Htr3, Htr2, Htr1, <- app_assoc.
    repeat split; eauto; try lia; rewrite Ho; cbn [length]; [|lia].
    destruct (path_open env geo); [destruct Hclose as [-> _] | rewrite Hclose]; cbn; lia.
Qed.

(** X6.  In every run, whatever the service holds and answers, each delete
    call carries at least one and at most 100 identifiers. *)
Theorem every_delete_call_is_a_bounded_batch
    (env : Env) (geo creds : Path) (refresh : bool) (content : IML -> list Feature) :
  Forall (fun d => 1 <= length (snd d) <= 100)
    (deletes (trace (snd (upload_geo_data env geo creds refresh (initial content))))).
Proof.
  destruct (upload_geo_data_anatomy env geo creds refresh content)
    as (evs1 & evs2 & evs3 & -> & (Hev1 & _) & (_ & _ & Hd & _) & (Hev3 & _)).
  apply resolver_events_silent in Hev1 as (Hd1 & _).
  apply upload_events_silent in Hev3 as (Hd3 & _).
  autorewrite with trace. now rewrite Hd1, Hd3, app_nil_r.
Qed.

(** X10.  Every run loads the credentials once and makes at most one
    lookup, one creation, one search and one write; it opens at most one
    file, and closes no more files than it opened. *)
Theorem at_most_one_call_of_each_kind
    (env : Env) (geo creds : Path) (refresh : bool) (content : IML -> list Feature) :
  let tr := trace (snd (upload_geo_data env geo creds refresh (initial content))) in
  credential_loads tr = [creds]
  /\ length (lookups tr) <= 1
  /\ length (creations tr) <= 1
  /\ length (searches tr) <= 1
  /\ length (writes tr) <= 1
  /\ length (closes tr) <= length (opens tr) <= 1.
Proof.
  cbv zeta.
  destruct (upload_geo_data_anatomy env geo creds refresh content)
    as (evs1 & evs2 & evs3 & -> & (Hev1 & Hload & Hcount)
        & (Hev2 & Hs & _ & Hc2) & (Hev3 & Hw & Hclose)).
  pose proof (resolver_events_never_close _ Hev1) as Hc1.
  apply resolver_events_silent in Hev1 as (_ & Hw1 & Hs1 & Ho1).
  pose proof (purge_events_no_resolver_call _ Hev2) as (Hl2 & Hcr2).
  apply purge_events_silent in Hev2 as (Hw2 & Ho2 & Hn2).
  pose proof (upload_events_no_resolver_call _ Hev3) as (Hl3 & Hcr3).
  apply upload_events_silent in Hev3 as (_ & Hs3 & Hn3).
  autorewrite with trace.
  rewrite Hload, Hcr2, Hcr3, Hl2, Hl3, Hn2, Hn3, Hs1, Hs3, Hw1, Hw2, Hc1, Hc2, Ho1, Ho2.
  rewrite !app_nil_r. cbn [app]. repeat split; lia.
Qed.

(** X11.  Once the resolver has returned a layer, every search, delete
    and write of the run addresses that layer, and every other layer is
    left with the features it had. *)
Theorem only_the_resolved_layer_is_touched
    (env : Env) (geo creds : Path) (refresh : bool) (content : IML -> list Feature)
    (iml : IML) (w1 : World) :
  _get_here_iml env creds (initial content) = (Ok iml, w1) ->
  let run := upload_geo_data env geo creds refresh (initial content) in
  Forall (eq iml) (searches (trace (snd run)))
  /\ Forall (fun d => fst d = iml) (deletes (trace (snd run)))
  /\ Forall (fun d => fst d = iml) (writes (trace (snd run)))
  /\ (forall i, i <> iml -> layers (snd run) i = content i).
Proof.
  intros Hresolved. cbv zeta.
  assert (Hweaken : forall ds,
            Forall (fun d : IML * list string =>
                      fst d = iml /\ 1 <= length (snd d) <= 100) ds ->
            Forall (fun d => fst d = iml) ds).
  { intros ds. apply Forall_impl. tauto. }
  destruct (upload_geo_data_cases env geo creds refresh content)
    as [(e & w1' & Hres & Hrun)
       | [(iml' & w1' & e & w2 & Hres & Hpurge & Hrun)
         | (iml' & w1' & w2 & Hres & Hpurge & Hrun)]];
    rewrite Hrun; rewrite Hresolved in Hres;
    [discriminate Hres | injection Hres as <- <- ..].
  - apply get_here_iml_calls in Hresolved as (Hlay & evs1 & Htr1 & Hev1 & _).
    cbn [initial trace layers app] in Htr1, Hlay.
    apply resolver_events_silent in Hev1 as (Hd1 & Hw1 & Hs1 & _).
    apply refresh_block_calls in Hpurge as (Hother & evs2 & Htr2 & Hev2 & _ & Hs & Hd & _).
    apply purge_events_silent in Hev2 as (Hw2 & _).
    cbn [snd]. rewrite Htr2, Htr1. autorewrite with trace.
    rewrite Hd1, Hw1, Hs1, Hw2. cbn [app]. repeat split; auto.
    intros i Hi. now rewrite (Hother i Hi), Hlay.
  - apply get_here_iml_calls in Hresolved as (Hlay & evs1 & Htr1 & Hev1 & _).
    cbn [initial trace layers app] in Htr1, Hlay.
    apply resolver_events_silent in Hev1 as (Hd1 & Hw1 & Hs1 & _).
    apply refresh_block_calls in Hpurge as (Hother & evs2 & Htr2 & Hev2 & _ & Hs & Hd & _).
    apply purge_events_silent in Hev2 as (Hw2 & _).
    destruct (upload_block env iml geo w2) as [r3 w3] eqn:Hup.
    apply upload_block_calls in Hup as (Hother3 & evs3 & Htr3 & Hev3 & _ & _ & Hw & _).
    apply upload_events_silent in Hev3 as (Hd3 & Hs3 & _).
    cbn [snd]. rewrite Htr3, Htr2, Htr1. autorewrite with trace.
    rewrite Hd1, Hw1, Hs1, Hw2, Hd3, Hs3, !app_nil_r. cbn [app]. repeat split; auto.
    intros i Hi. now rewrite (Hother3 i Hi), (Hother i Hi), Hlay.
Qed.

Lemma only_the_resolved_layer_is_touched_witness :
  let remote := Sample.stored_features 250 in
  let run := upload_geo_data
               (Sample.world (Ok 7) (Raise Sample.forbidden) remote None
                  (Some Sample.three_rides_text))
               Sample.geo_path Sample.creds_path true
               (initial (fun i => if i =? 3 then remote else Sample.content remote i)) in
  layers (snd run) 3 = Sample.stored_features 250.
Proof.
  cbv zeta.
  destruct (only_the_resolved_layer_is_touched
              (Sample.world (Ok 7) (Raise Sample.forbidden) (Sample.stored_features 250)
                 None (Some Sample.three_rides_text))
              Sample.geo_path Sample.creds_path true
              (fun i => if i =? 3 then Sample.stored_features 250
                        else Sample.content (Sample.stored_features 250) i)
              7 _ eq_refl) as (_ & _ & _ & Hother).
  rewrite (Hother 3); [reflexivity | discriminate].
Defined.

(** X12.  The file is closed whenever it was opened: in every run that
    reaches the file and opens it, the closing of the file is the last event
    of the trace, whether the parse failed, the upload was skipped, the
    write failed or the write was made; a run that could not open the file,
    or never reached it, closes nothing. *)
Theorem opened_file_is_closed
    (env : Env) (geo creds : Path) (refresh : bool) (content : IML -> list Feature) :
  let tr := trace (snd (upload_geo_data env geo creds refresh (initial content))) in
  (forall text,
     path_open env geo = Ok text -> opens tr = [geo] ->
     closes tr = [geo] /\ exists before, tr = before ++ [EClose geo])
  /\ (forall e, path_open env geo = Raise e -> closes tr = [])
  /\ (opens tr = [] -> closes tr = []).
Proof.
  cbv zeta.
  assert (Hquiet : forall w r w',
            _get_here_iml env creds w = (r, w') ->
            exists evs, trace w' = trace w ++ evs /\ opens evs = [] /\ closes evs = []).
  { intros w r w' Hres.
    apply get_here_iml_calls in Hres as (_ & evs & Htr & Hev & _).
    exists evs. split; [exact Htr|]. split.
    - now apply resolver_events_silent in Hev.
    - now apply resolver_events_never_close. }
  assert (Hpurge_quiet : forall iml w r w',
            refresh_block env iml refresh w = (r, w') ->
            exists evs, trace w' = trace w ++ evs /\ opens evs = [] /\ closes evs = []).
  { intros iml w r w' Hpurge.
    apply refresh_block_calls in Hpurge as (_ & evs & Htr & Hev & _ & _ & _ & Hc).
    exists evs. split; [exact Htr|]. split; [|exact Hc].
    now apply purge_events_silent in Hev. }
  destruct (upload_geo_data_cases env geo creds refresh content)
    as [(e & w1 & Hres & Hrun)
       | [(iml & w1 & e & w2 & Hres & Hpurge & Hrun)
         | (iml & w1 & w2 & Hres & Hpurge & Hrun)]];
    rewrite Hrun; apply Hquiet in Hres as (evs1 & Htr1 & Ho1 & Hc1);
    cbn [initial trace app] in Htr1.
  - cbn [snd]. rewrite Htr1, Ho1, Hc1. repeat split; auto; discriminate.
  - apply Hpurge_quiet in Hpurge as (evs2 & Htr2 & Ho2 & Hc2).
    cbn [snd]. rewrite Htr2, Htr1. autorewrite with trace.
    rewrite Ho1, Ho2, Hc1, Hc2. repeat split; auto; discriminate.
  - apply Hpurge_quiet in Hpurge as (evs2 & Htr2 & Ho2 & Hc2).
    destruct (upload_block env iml geo w2) as [r3 w3] eqn:Hup.
    apply upload_block_calls in Hup as (_ & evs3 & Htr3 & _ & Ho3 & _ & _ & Hclose).
    cbn [snd]. rewrite Htr3, Htr2, Htr1. autorewrite with trace.
    rewrite Ho1, Ho2, Hc1, Hc2, Ho3. cbn [app].
    split; [|split].
    + intros text Hopen _. rewrite Hopen in Hclose. destruct Hclose as (-> & before & ->).
      split; [reflexivity|]. exists ((evs1 ++ evs2) ++ before). now rewrite !app_assoc.
    + intros e Hopen. now rewrite Hopen in Hclose.
    + discriminate.
Qed.

Lemma opened_file_is_closed_witness :
  let tr := trace (snd (upload_geo_data
                          (Sample.world (Ok 7) (Raise Sample.forbidden) [] None
                             (Some "not json"))
                          Sample.geo_path Sample.creds_path false
                          (initial (Sample.content [])))) in
  closes tr = [Sample.geo_path] /\ exists before, tr = before ++ [EClose Sample.geo_path].
Proof.
  cbv zeta.
  destruct (opened_file_is_closed
              (Sample.world (Ok 7) (Raise Sample.forbidden) [] None (Some "not json"))
              Sample.geo_path Sample.creds_path false (Sample.content []))
    as (Hclosed & _).
  exact (Hclosed "not json" eq_refl eq_refl).
Defined.

(** X5.  With [refresh] set, when the search raises, the exception leaves
    [upload_geo_data] right after the search call: nothing is deleted, the
    file is not opened, nothing is written, no layer changes, and the line
    announcing the deletion is not printed. *)
Theorem search_failure_propagates
    (env : Env) (geo creds : Path) (content : IML -> list Feature)
    (iml : IML) (w1 : World) (e : exn) :
  _get_here_iml env creds (initial content) = (Ok iml, w1) ->
  search_result env iml = Raise e ->
  let run := upload_geo_data env geo creds true (initial content) in
  run = (Raise e, record_event (ESearch iml) w1)
  /\ deletes (trace (snd run)) = []
  /\ opens (trace (snd run)) = []
  /\ writes (trace (snd run)) = []
  /\ prints (trace (snd run)) = prints (trace w1)
  /\ layers (snd run) = content.
Proof.
  intros Hres Hsearch. cbv zeta.
  assert (Hrun : upload_geo_data env geo creds true (initial content)
                 = (Raise e, record_event (ESearch iml) w1)).
  { unfold upload_geo_data. unfold bind at 1. rewrite Hres.
    unfold bind at 1, refresh_block, bind at 1, search_features. now rewrite Hsearch. }
  rewrite Hrun. split; [reflexivity|].
  apply get_here_iml_calls in Hres as (Hlay & evs & Htr & Hev & _).
  cbn [initial trace layers app] in Htr, Hlay.
  apply resolver_events_silent in Hev as (Hd & Hw & _ & Ho).
  cbn [snd trace layers record_event]. autorewrite with trace.
  rewrite Htr, Hd, Hw, Ho. cbn. now rewrite app_nil_r.
Qed.

Lemma search_failure_propagates_witness :
  let env := (Sample.broken (Ok "here-token") (Raise Sample.unavailable) None) in
  let run := upload_geo_data env Sample.geo_path Sample.creds_path true
               (initial (Sample.content (Sample.stored_features 3))) in
  fst run = Raise Sample.unavailable
  /\ opens (trace (snd run)) = []
  /\ layers (snd run) 7 = Sample.stored_features 3.
Proof.
  cbv zeta.
  destruct (search_failure_propagates
              (Sample.broken (Ok "here-token") (Raise Sample.unavailable) None)
              Sample.geo_path Sample.creds_path
              (Sample.content (Sample.stored_features 3)) 7 _ Sample.unavailable
              eq_refl eq_refl) as (Hrun & _ & Hopens & _ & _ & Hlayers).
  split; [now rewrite Hrun|]. split; [exact Hopens|]. now rewrite Hlayers.
Defined.




(** X8.  A refreshing run in which nothing fails: the search, the line
    announcing the deletion, one delete call per batch in order, then the
    opening of the file, the line announcing the upload, the write and the
    closing; the resolved layer ends as the write made it from the features
    the search did not return. *)
Theorem successful_refresh_run
    (env : Env) (geo creds : Path) (content : IML -> list Feature)
    (iml : IML) (w1 : World) (fs : list Feature) (text : string) (geo_data : json) :
  _get_here_iml env creds (initial content) = (Ok iml, w1) ->
  search_result env iml = Ok fs ->
  let chunks := feature_ids_chunks (map feature_id fs) in
  (forall j, j < length chunks -> delete_failure env j iml (nth j chunks []) = None) ->
  path_open env geo = Ok text ->
  parse_geojson env text = Ok geo_data ->
  truthy geo_data = true ->
  write_failure env iml geo_data = None ->
  let run := upload_geo_data env geo creds true (initial content) in
  fst run = Ok tt
  /\ trace (snd run)
     = trace w1 ++ [ESearch iml; EPrint deleting_message]
         ++ map (EDelete iml) chunks
         ++ [EOpen geo; EPrint (uploading_message geo); EWrite iml geo_data; EClose geo]
  /\ layers (snd run) iml
     = write_effect env geo_data (without_ids (map feature_id fs) (content iml)).
Proof.
  intros Hres Hsearch chunks Hok Hopen Hparse Htrue Hwrite. cbv zeta.
  rewrite (refreshing_run env geo creds content iml w1 Hres fs Hsearch).
  destruct (before_the_loop env creds content iml w1 Hres _ eq_refl)
    as (Hd0 & _ & _ & Hlay0 & Htr0).
  set (w0 := record_event (EPrint deleting_message) (record_event (ESearch iml) w1)) in *.
  fold chunks.
  destruct (delete_loop_ok env iml chunks w0) as (w' & Hloop & Htr & Hlay & _).
  { intros j Hj. rewrite Hd0. cbn [length Nat.add]. now apply Hok. }
  rewrite Hloop, upload_block_run, Hopen, Hparse, Htrue. cbv zeta. rewrite Hwrite.
  cbn [fst snd trace layers record_event set_layer]. rewrite Nat.eqb_refl.
  split; [reflexivity|]. split.
  - rewrite Htr, Htr0, <- !app_assoc. reflexivity.
  - rewrite Hlay, Hlay0. unfold chunks, feature_ids_chunks.
    now rewrite chunks_of_concat by apply Nat.lt_0_succ.
Qed.

Lemma successful_refresh_run_witness :
  let remote := Sample.stored_features 250 in
  let run := upload_geo_data
               (Sample.world (Ok 7) (Raise Sample.forbidden) remote None
                  (Some Sample.three_rides_text))
               Sample.geo_path Sample.creds_path true (initial (Sample.content remote)) in
  fst run = Ok tt
  /\ layers (snd run) 7
     = [{| feature_id := "uploaded"; feature_body := Sample.three_rides |}].
Proof.
  cbv zeta.
  destruct (successful_refresh_run
              (Sample.world (Ok 7) (Raise Sample.forbidden) (Sample.stored_features 250)
                 None (Some Sample.three_rides_text))
              Sample.geo_path Sample.creds_path
              (Sample.content (Sample.stored_features 250)) 7 _
              (Sample.stored_features 250) Sample.three_rides_text Sample.three_rides
              eq_refl eq_refl) as (Hok & _ & Hlayer).
  - intros j _. reflexivity.
  - reflexivity.
  - reflexivity.
  - reflexivity.
  - reflexivity.
  - split; [exact Hok|]. rewrite Hlayer. vm_compute. reflexivity.
Defined.



(** X13.  A file that opens but holds no JSON document: the parser's
    exception leaves [upload_geo_data], after the file has been closed;
    nothing is printed by the upload block, nothing is written, and the
    layers are as the purge left them. *)
Theorem parse_failure_propagates
    (env : Env) (geo creds : Path) (refresh : bool) (content : IML -> list Feature)
    (iml : IML) (w1 w2 : World) (text : string) (e : exn) :
  _get_here_iml env creds (initial content) = (Ok iml, w1) ->
  refresh_block env iml refresh w1 = (Ok tt, w2) ->
  path_open env geo = Ok text ->
  parse_geojson env text = Raise e ->
  let run := upload_geo_data env geo creds refresh (initial content) in
  fst run = Raise e
  /\ trace (snd run) = trace w2 ++ [EOpen geo; EClose geo]
  /\ writes (trace (snd run)) = []
  /\ prints (trace (snd run)) = prints (trace w2)
  /\ layers (snd run) = layers w2.
Proof.
  intros Hres Hpurge Hopen Hparse. cbv zeta.
  destruct (upload_geo_data_phases env geo creds content refresh iml w1 w2 Hres Hpurge)
    as (-> & Hw & _).
  rewrite upload_block_run, Hopen, Hparse.
  cbn [fst snd trace layers record_event]. autorewrite with trace.
  rewrite Hw, <- !app_assoc. cbn. rewrite !app_nil_r. repeat split.
Qed.

Lemma parse_failure_propagates_witness :
  let run := upload_geo_data
               (Sample.world (Ok 7) (Raise Sample.forbidden) [] None (Some "not json"))
               Sample.geo_path Sample.creds_path false (initial (Sample.content [])) in
  fst run = Raise (PyException "JSONDecodeError" "Expecting value")
  /\ writes (trace (snd run)) = [].
Proof.
  cbv zeta.
  destruct (parse_failure_propagates
              (Sample.world (Ok 7) (Raise Sample.forbidden) [] None (Some "not json"))
              Sample.geo_path Sample.creds_path false (Sample.content []) 7 _ _
              "not json" (PyException "JSONDecodeError" "Expecting value")
              eq_refl eq_refl eq_refl eq_refl)
    as (Hraise & _ & Hwrites & _).
  split; [exact Hraise | exact Hwrites].
Defined.

(** X15.  A refresh replaces the content of the layer: when the search
    returns every feature of the resolved layer and nothing fails, the layer
    ends as the write makes it from an empty layer, and one delete call was
    made per batch of the identifiers it held. *)
Theorem refresh_replaces_layer_content
    (env : Env) (geo creds : Path) (content : IML -> list Feature)
    (iml : IML) (w1 : World) (text : string) (geo_data : json) :
  _get_here_iml env creds (initial content) = (Ok iml, w1) ->
  search_result env iml = Ok (content iml) ->
  let chunks := feature_ids_chunks (map feature_id (content iml)) in
  (forall j, j < length chunks -> delete_failure env j iml (nth j chunks []) = None) ->
  path_open env geo = Ok text ->
  parse_geojson env text = Ok geo_data ->
  truthy geo_data = true ->
  write_failure env iml geo_data = None ->
  let run := upload_geo_data env geo creds true (initial content) in
  fst run = Ok tt
  /\ length (deletes (trace (snd run))) = ceil_div (length (content iml)) 100
  /\ writes (trace (snd run)) = [(iml, geo_data)]
  /\ layers (snd run) iml = write_effect env geo_data [].
Proof.
  intros Hres Hsearch chunks Hok Hopen Hparse Htrue Hwrite. cbv zeta.
  rewrite (refreshing_run env geo creds content iml w1 Hres _ Hsearch).
  destruct (before_the_loop env creds content iml w1 Hres _ eq_refl)
    as (Hd0 & Hw0 & _ & Hlay0 & _).
  set (w0 := record_event (EPrint deleting_message) (record_event (ESearch iml) w1)) in *.
  fold chunks.
  destruct (delete_loop_ok env iml chunks w0) as (w' & Hloop & Htr & Hlay & _).
  { intros j Hj. rewrite Hd0. cbn [length Nat.add]. now apply Hok. }
  rewrite Hloop, upload_block_run, Hopen, Hparse, Htrue. cbv zeta. rewrite Hwrite.
  cbn [fst snd trace layers record_event set_layer]. rewrite Nat.eqb_refl.
  split; [reflexivity|]. autorewrite with trace.
  rewrite Htr. autorewrite with trace.
  rewrite Hd0, Hw0, deletes_of_batches, writes_of_batches. cbn [app deletes writes flat_map].
  rewrite !app_nil_r, length_map. split; [|split; [reflexivity|]].
  - unfold chunks, feature_ids_chunks.
    rewrite (chunks_of_length 100 (Nat.lt_0_succ _)). now rewrite length_map.
  - rewrite Hlay, Hlay0. unfold chunks, feature_ids_chunks.
    rewrite chunks_of_concat by apply Nat.lt_0_succ.
    rewrite without_ids_all; [reflexivity|]. intros f Hf. now apply in_map.
Qed.

Lemma refresh_replaces_layer_content_witness :
  let remote := Sample.stored_features 250 in
  let run := upload_geo_data
               (Sample.world (Ok 7) (Raise Sample.forbidden) remote None
                  (Some Sample.three_rides_text))
               Sample.geo_path Sample.creds_path true (initial (Sample.content remote)) in
  length (deletes (trace (snd run))) = 3
  /\ layers (snd run) 7
     = [{| feature_id := "uploaded"; feature_body := Sample.three_rides |}].
Proof.
  cbv zeta.
  destruct (refresh_replaces_layer_content
              (Sample.world (Ok 7) (Raise Sample.forbidden) (Sample.stored_features 250)
                 None (Some Sample.three_rides_text))
              Sample.geo_path Sample.creds_path
              (Sample.content (Sample.stored_features 250)) 7 _
              Sample.three_rides_text Sample.three_rides
              eq_refl eq_refl) as (_ & Hcount & _ & Hlayer).
  - intros j _. reflexivity.
  - reflexivity.
  - reflexivity.
  - reflexivity.
  - reflexivity.
  - split; [rewrite Hcount; vm_compute; reflexivity | exact Hlayer].
Defined.
